(** * HomeHub front end: navigation panel and relay status reconciler

    A shallow embedding of the browser scripts of the HomeHub dashboard:

    - [shortcuts-enhance.js]: [toBool], [applyFromText], [applyFromIPX];
    - [menu.js] in its two revisions: the one that attaches to the anchors
      [#menuBtn], [#sidebar], [#overlay] of the page (module [Menu]) and the
      one that builds its own button, backdrop and panel (module [BuiltMenu]).

    JavaScript values are embedded with the conversions the scripts apply to
    them ([ToNumber], [ToInt32], [ToBoolean], [String]); numbers are IEEE 754
    binary64 values, strings are sequences of code units below 256. *)

From Stdlib Require Import ZArith Bool List Ascii String Lia.
From Stdlib Require Import Floats.SpecFloat.
From stdpp Require Import base option list strings gmap.

Local Open Scope string_scope.
Local Open Scope Z_scope.

(** ** Strings *)

Module JSString.

(** [WhiteSpace] and [LineTerminator] code units below 256: TAB, LF, VT,
    FF, CR, SP and NBSP. *)
Definition is_space (c : ascii) : bool :=
  let n := N_of_ascii c in
  ((n =? 9) || (n =? 10) || (n =? 11) || (n =? 12) || (n =? 13)
   || (n =? 32) || (n =? 160))%N.

Fixpoint trimStart (s : string) : string :=
  match s with
  | String c s' => if is_space c then trimStart s' else s
  | EmptyString => EmptyString
  end.

Fixpoint trimEnd (s : string) : string :=
  match s with
  | EmptyString => EmptyString
  | String c s' =>
      match trimEnd s' with
      | EmptyString => if is_space c then EmptyString else String c EmptyString
      | t => String c t
      end
  end.

(** [String.prototype.trim] *)
Definition trim (s : string) : string := trimEnd (trimStart s).

(** Lower case of one code unit: A-Z, and the Latin-1 capitals
    U+00C0..U+00DE without the multiplication sign U+00D7. *)
Definition lower_char (c : ascii) : ascii :=
  let n := N_of_ascii c in
  if (((65 <=? n) && (n <=? 90))
      || ((192 <=? n) && (n <=? 222) && negb (n =? 215)))%N
  then ascii_of_N (n + 32) else c.

(** [String.prototype.toLowerCase] *)
Fixpoint toLowerCase (s : string) : string :=
  match s with
  | EmptyString => EmptyString
  | String c s' => String (lower_char c) (toLowerCase s')
  end.

(** A string made of white space only (the empty string included). *)
Fixpoint all_space (s : string) : bool :=
  match s with
  | EmptyString => true
  | String c s' => is_space c && all_space s'
  end.

End JSString.

(** ** Numbers *)

Module JSNumber.

(** A Number is a binary64 value. *)
Abbreviation number := spec_float (only parsing).

Definition prec : Z := 53.
Definition emax : Z := 1024.

Definition NaN : number := S754_nan.
Definition pos_zero : number := S754_zero false.

(** The Number nearest to the integer [z] (exact below 2^53). *)
Definition of_Z (z : Z) : number := binary_normalize prec emax z 0 false.

(** The Number nearest to [num / den] (ties to even), with the sign
    [neg]; [num] and [den] are not negative. *)
Definition of_ratio (neg : bool) (num den : Z) : number :=
  match num, den with
  | Z0, _ => S754_zero neg
  | Zpos n, Zpos d =>
      SFdiv prec emax (S754_finite neg n 0) (S754_finite false d 0)
  | _, _ => S754_nan
  end.

(** [Number.isFinite] on a Number *)
Definition isFinite (n : number) : bool :=
  match n with
  | S754_zero _ | S754_finite _ _ _ => true
  | S754_infinity _ | S754_nan => false
  end.

(** [n === 0]: both zeros are equal to [0], NaN is equal to nothing. *)
Definition is_zero (n : number) : bool :=
  match n with
  | S754_zero _ => true
  | _ => false
  end.

(** The mathematical value of [n] when it is an integer. *)
Definition integer_value (n : number) : option Z :=
  match n with
  | S754_zero _ => Some 0
  | S754_finite s m e =>
      let mag :=
        if 0 <=? e then Some (Zpos m * 2 ^ e)
        else if Zpos m mod 2 ^ (- e) =? 0 then Some (Zpos m / 2 ^ (- e))
        else None in
      (fun k => if s then - k else k) <$> mag
  | _ => None
  end.

(** Reduction modulo 2^32 into the signed 32-bit range. *)
Definition wrap32 (i : Z) : Z :=
  let r := i mod 2 ^ 32 in
  if 2 ^ 31 <=? r then r - 2 ^ 32 else r.

(** [ToInt32]: NaN, the zeros and the infinities give 0; a finite value is
    truncated toward zero and reduced modulo 2^32. *)
Definition ToInt32 (n : number) : Z :=
  match n with
  | S754_finite s m e =>
      let t := Z.shiftl (Zpos m) e in
      wrap32 (if s then - t else t)
  | _ => 0
  end.

(** *** [StringToNumber] *)

Definition digit_of (base : Z) (c : ascii) : option Z :=
  let n := Z.of_N (N_of_ascii c) in
  let d :=
    if (48 <=? n) && (n <=? 57) then Some (n - 48)
    else if (97 <=? n) && (n <=? 102) then Some (n - 87)
    else if (65 <=? n) && (n <=? 70) then Some (n - 55)
    else None in
  d ≫= (fun v => if v <? base then Some v else None).

(** Reads the longest prefix of digits of [base]: its value on top of
    [acc], the number of digits read, and the rest of the string. *)
Fixpoint read_digits (base : Z) (s : string) (acc : Z) (cnt : nat)
  : Z * nat * string :=
  match s with
  | String c s' =>
      match digit_of base c with
      | Some d => read_digits base s' (acc * base + d) (S cnt)
      | None => (acc, cnt, s)
      end
  | EmptyString => (acc, cnt, s)
  end.

(** [NonDecimalIntegerLiteral] without its prefix: digits up to the end. *)
Definition non_decimal (base : Z) (s : string) : number :=
  match read_digits base s 0 0 with
  | (v, S _, EmptyString) => of_Z v
  | _ => NaN
  end.

(** [ExponentPart], optional: the exponent, when what is left of the
    literal is empty or a well-formed exponent part. *)
Definition exponent_part (s : string) : option Z :=
  match s with
  | EmptyString => Some 0
  | String c s' =>
      if (Ascii.eqb c "e" || Ascii.eqb c "E")%bool then
        let '(neg, ds) :=
          match s' with
          | String "+" t => (false, t)
          | String "-" t => (true, t)
          | _ => (false, s')
          end in
        match read_digits 10 ds 0 0 with
        | (v, S _, EmptyString) => Some (if neg then - v else v)
        | _ => None
        end
      else None
  end.

(** [StrUnsignedDecimalLiteral] with the sign already read. *)
Definition unsigned_decimal (neg : bool) (s : string) : number :=
  if String.eqb s "Infinity" then S754_infinity neg
  else
    let '(ip, ni, rest) := read_digits 10 s 0 0 in
    let '(mant, nf, rest') :=
      match rest with
      | String "." t =>
          let '(m, nf, r) := read_digits 10 t ip 0 in (m, nf, r)
      | _ => (ip, 0%nat, rest)
      end in
    match (ni + nf)%nat, exponent_part rest' with
    | S _, Some ex =>
        let e10 := ex - Z.of_nat nf in
        if 0 <=? e10 then of_ratio neg (mant * 10 ^ e10) 1
        else of_ratio neg mant (10 ^ (- e10))
    | _, _ => NaN
    end.

(** [StringToNumber]: white space is trimmed, the empty string is [+0],
    anything that is not a [StrNumericLiteral] is NaN. *)
Definition StringToNumber (str : string) : number :=
  match JSString.trim str with
  | EmptyString => pos_zero
  | String "0" (String "x" t) | String "0" (String "X" t) => non_decimal 16 t
  | String "0" (String "o" t) | String "0" (String "O" t) => non_decimal 8 t
  | String "0" (String "b" t) | String "0" (String "B" t) => non_decimal 2 t
  | String "+" t => unsigned_decimal false t
  | String "-" t => unsigned_decimal true t
  | t => unsigned_decimal false t
  end.

End JSNumber.

(** ** Values *)

Module JSValue.
Import JSNumber.

(** The values the scripts handle.  [VObject str] is an object or an array
    as [JSON.parse] builds them that converts to a primitive, given by the
    string its [toString] yields (["[object Object]"] for an object, the
    joined elements for an array): its conversion goes through that string,
    whether the hint is number or string.  An object that does not convert
    (a JSON object with an own [toString] key, whose value is no function,
    or an array that holds one) is no [value]: coercing it to a number or
    to a string throws a TypeError, and it is given apart where the
    scripts can meet one ([field] below, [ItUnconvertible] in the relay
    payload). *)
Inductive value : Type :=
| VUndefined
| VNull
| VBool (b : bool)
| VNumber (n : number)
| VString (s : string)
| VObject (str : string).

(** [ToNumber], on a value that converts. *)
Definition ToNumber (v : value) : number :=
  match v with
  | VUndefined => NaN
  | VNull => pos_zero
  | VBool b => if b then of_Z 1 else pos_zero
  | VNumber n => n
  | VString s => StringToNumber s
  | VObject str => StringToNumber str
  end.

(** [!!v] *)
Definition ToBoolean (v : value) : bool :=
  match v with
  | VUndefined | VNull => false
  | VBool b => b
  | VNumber n =>
      match n with
      | S754_zero _ | S754_nan => false
      | _ => true
      end
  | VString s => negb (String.eqb s "")
  | VObject _ => true
  end.

(** [v | 0] *)
Definition bitor0 (v : value) : Z := ToInt32 (ToNumber v).

(** [v === s] for a string literal [s] *)
Definition strict_eq_string (v : value) (s : string) : bool :=
  match v with
  | VString t => String.eqb t s
  | _ => false
  end.

(** The value of a [dataset] property or of [getAttribute]: a string, or
    nothing where the attribute is absent. *)
Definition of_attr (o : option string) : value :=
  match o with
  | Some s => VString s
  | None => VUndefined
  end.

(** What a property of a parsed JSON body reads: a value that converts to
    a primitive, or an object that does not. *)
Inductive field : Type :=
| Converts (v : value)
| Unconvertible.

(** [!!x] on a field: every object is true. *)
Definition truthy (x : field) : bool :=
  match x with
  | Converts v => ToBoolean v
  | Unconvertible => true
  end.

End JSValue.

(** ** DOM token lists *)

Module ClassList.

(** [classList.contains] *)
Definition contains (l : list string) (t : string) : bool :=
  bool_decide (t ∈ l).

(** [classList.add]: appends the token unless it is there. *)
Definition add (l : list string) (t : string) : list string :=
  if contains l t then l else l ++ [t].

(** [classList.remove] *)
Definition remove (l : list string) (t : string) : list string :=
  filter (λ u, u ≠ t) l.

(** [classList.toggle(t, force)] *)
Definition toggle (l : list string) (t : string) (force : bool)
  : list string :=
  if force then add l t else remove l t.

End ClassList.

(** ** shortcuts-enhance.js *)

Module Shortcuts.
Import JSNumber JSValue.

(** Normalizes various boolean-ish values to true/false. *)
Definition toBool (v : value) : bool :=
  match v with
  | VBool b => b                        (* v === true || v === false *)
  | VUndefined | VNull => false         (* v == null *)
  | VNumber n => negb (is_zero n)       (* typeof v === 'number': v !== 0 *)
  | VString str | VObject str =>        (* String(v) *)
      let s := JSString.toLowerCase (JSString.trim str) in
      String.eqb s "1" || String.eqb s "true"
      || String.eqb s "on" || String.eqb s "yes"
  end.

(** An [.icon-btn] element: its [data-source] and [data-ipx-index]
    attributes, the text of its first [.js-display] descendant (if it has
    one) and its class list. *)
Record control : Type := Control {
  source : option string;
  ipxIndex : option string;
  display : option string;
  classList : list string
}.

Definition is_on (btn : control) : bool :=
  ClassList.contains (classList btn) "is-on".

Definition toggle_is_on (btn : control) (force : bool) : control :=
  {| source := source btn; ipxIndex := ipxIndex btn;
     display := display btn;
     classList := ClassList.toggle (classList btn) "is-on" force |}.

(** Applies green state based on content. *)
Definition applyFromText (button : control) : control :=
  let val := match display button with
             | Some textContent => textContent
             | None => ""
             end in
  toggle_is_on button (toBool (VString val)).

(** The relay states, [new Array(32).fill(false)] with booleans stored. *)
Abbreviation snapshot := (list bool) (only parsing).

(** [states[idx0]] for a Number [idx0]: the element when [idx0] is an
    integer that indexes the array, [undefined] otherwise (the property
    key of any other Number names no property of an array). *)
Definition array_get (states : snapshot) (idx0 : number) : value :=
  match integer_value idx0 with
  | Some k =>
      if 0 <=? k then
        match states !! Z.to_nat k with
        | Some b => VBool b
        | None => VUndefined
        end
      else VUndefined
  | None => VUndefined
  end.

(** *** The fetch and its payload *)

(** An element [it] of [j.relays]: [null], on which reading a property
    throws; an element whose [it.relay] converts to a number, given by
    what [it.relay] and [it.on] read ([VUndefined] for a missing field;
    [it.on] is only coerced by [!!], so an [on] that is an object of any
    kind is given as a [VObject]); or an element whose [it.relay] is an
    object that does not convert, on which [it.relay | 0] throws. *)
Inductive item : Type :=
| ItNull
| It (relay on : value)
| ItUnconvertible.

(** What [j.relays] reads: a falsy value (replaced by [[]]), an array, or
    a truthy value that has no [forEach] method. *)
Inductive relays : Type :=
| RelaysFalsy
| RelaysArray (items : list item)
| RelaysOther.

(** The parsed body [j]: [null], or a value given by its [relays]. *)
Inductive body : Type :=
| BodyNull
| Body (r : relays).

(** A response: [r.ok], and what [r.json()] resolves to (nothing when
    the body is not JSON). *)
Record response : Type := Response {
  ok : bool;
  json : option body
}.

(** [fetch] resolves to a response or rejects. *)
Inductive fetched : Type :=
| FetchRejected
| FetchResolved (r : response).

(** *** Exceptions and the variable [states] *)

Inductive exn : Type := NetworkError | SyntaxError | TypeError.

Inductive outcome (A : Type) : Type :=
| Returns (a : A)
| Throws (e : exn).
Arguments Returns {A} a.
Arguments Throws {A} e.

(** A computation reads and assigns [states] ([null] is [None]) and
    returns or throws. *)
Definition js (A : Type) : Type :=
  option snapshot → option snapshot * outcome A.

#[export] Instance js_ret : MRet js := λ A a st, (st, Returns a).
#[export] Instance js_bind : MBind js := λ A B k c st,
  match c st with
  | (st', Returns a) => k a st'
  | (st', Throws e) => (st', Throws e)
  end.

Definition throw {A} (e : exn) : js A := λ st, (st, Throws e).
Definition get_states : js (option snapshot) := λ st, (st, Returns st).
Definition set_states (s : option snapshot) : js unit :=
  λ _, (s, Returns tt).

(** [try { c } catch (e) { }] *)
Definition try_catch_ignore (c : js unit) : js unit := λ st,
  match c st with
  | (st', _) => (st', Returns tt)
  end.

Definition await_fetch (f : fetched) : js response :=
  match f with
  | FetchRejected => throw NetworkError
  | FetchResolved r => mret r
  end.

Definition await_json (r : response) : js body :=
  match json r with
  | Some j => mret j
  | None => throw SyntaxError
  end.

Definition get_relays (j : body) : js relays :=
  match j with
  | BodyNull => throw TypeError
  | Body r => mret r
  end.

(** The callback of [forEach]. *)
Definition visit (it : item) : js unit :=
  match it with
  | ItNull => throw TypeError
  | It relay on =>
      let idx0 := bitor0 relay - 1 in
      states ← get_states;
      match states with
      | None => throw TypeError
      | Some arr =>
          if (0 <=? idx0) && (idx0 <? Z.of_nat (length arr)) then
            set_states (Some (<[Z.to_nat idx0 := ToBoolean on]> arr))
          else mret tt
      end
  | ItUnconvertible => throw TypeError
  end.

Fixpoint forEach (items : list item) : js unit :=
  match items with
  | [] => mret tt
  | it :: rest => visit it ≫= λ _, forEach rest
  end.

(** The body of the [try] of [applyFromIPX]. *)
Definition try_fetch (f : fetched) : js unit :=
  r ← await_fetch f;
  if ok r then
    j ← await_json r;
    _ ← set_states (Some (replicate 32 false));
    rel ← get_relays j;
    match rel with
    | RelaysFalsy => forEach []
    | RelaysArray items => forEach items
    | RelaysOther => throw TypeError
    end
  else mret tt.

(** The callback of the loop over the [.icon-btn] elements. *)
Definition paint (states : option snapshot) (btn : control) : control :=
  let src := of_attr (source btn) in
  let idx0 := ToNumber (of_attr (ipxIndex btn)) in
  if strict_eq_string src "ipx" && isFinite idx0 then
    let on := match states with
              | Some arr => ToBoolean (array_get arr idx0)
              | None => false
              end in
    toggle_is_on btn on
  else applyFromText btn.

(** Updates all buttons that declare an IPX mapping using 0-based index. *)
Definition applyFromIPX (f : fetched) (doc : list control)
  : js (list control) :=
  _ ← set_states None;
  _ ← try_catch_ignore (try_fetch f);
  states ← get_states;
  mret (paint states <$> doc).

(** Runs once now, and also after your own render function if it exists. *)
Definition run (f : fetched) (doc : list control) : js (list control) :=
  applyFromIPX f doc.

(** [reconcile]: what one call of [run] makes of the controls of the page,
    given what its fetch resolves to. *)
Definition reconcile (f : fetched) (doc : list control)
  : outcome (list control) :=
  (run f doc None).2.

(** The value of [states] when the loop over the controls starts. *)
Definition snapshot_of (f : fetched) : option snapshot :=
  (try_catch_ignore (try_fetch f) None).1.

(** A successful fetch of the body [{relays: items}]. *)
Definition fetched_relays (items : list item) : fetched :=
  FetchResolved {| ok := true; json := Some (Body (RelaysArray items)) |}.

(** The fetch fails: it rejects, the response is not [ok], or its body
    is not JSON. *)
Definition fetch_failed (f : fetched) : bool :=
  match f with
  | FetchRejected => true
  | FetchResolved r => negb (ok r) || bool_decide (json r = None)
  end.

End Shortcuts.

(** ** Elements, links and the route *)

Module DOM.
Import JSValue.

(** An element: its class list and its attributes. *)
Record element : Type := Element {
  classList : list string;
  attributes : gmap string string
}.

Definition getAttribute (el : element) (name : string) : option string :=
  attributes el !! name.

Definition setAttribute (name v : string) (el : element) : element :=
  {| classList := classList el;
     attributes := <[name := v]> (attributes el) |}.

Definition classList_add (t : string) (el : element) : element :=
  {| classList := ClassList.add (classList el) t;
     attributes := attributes el |}.

Definition classList_remove (t : string) (el : element) : element :=
  {| classList := ClassList.remove (classList el) t;
     attributes := attributes el |}.

(** An [<a>] element: its [href] attribute and its class list. *)
Record link : Type := Link {
  href : option string;
  link_classList : list string
}.

Definition marked (token : string) (a : link) : bool :=
  ClassList.contains (link_classList a) token.

(** [s.replace(/\/+$/, '')]: the slashes that end the string go. *)
Fixpoint strip_trailing_slashes (s : string) : string :=
  match s with
  | EmptyString => EmptyString
  | String c s' =>
      match strip_trailing_slashes s' with
      | EmptyString =>
          if Ascii.eqb c "/" then EmptyString else String c EmptyString
      | t => String c t
      end
  end.

(** [location.pathname.replace(/\/+$/, '') || '/'] *)
Definition current_path (pathname : string) : string :=
  match strip_trailing_slashes pathname with
  | EmptyString => "/"
  | p => p
  end.

(** The callback of the loop over the links:
    [if (a.getAttribute('href') === path) a.classList.add(token)]. *)
Definition highlight (token path : string) (a : link) : link :=
  if strict_eq_string (of_attr (href a)) path then
    {| href := href a;
       link_classList := ClassList.add (link_classList a) token |}
  else a.

End DOM.

(** ** menu.js, attached to the anchors of the page *)

Module Menu.
Import JSValue DOM.

Inductive target : Type := Btn | Overlay | Window.

(** The three callbacks the script registers. *)
Inductive callback : Type :=
| ToggleOnClick
| Close
| CloseOnEscape.

Record listener : Type := Listener {
  listens_on : target;
  listens_to : string;
  calls : callback
}.

(** The page: the elements with the ids [menuBtn], [sidebar] and
    [overlay] (where they exist), the [a.menu-item] links inside the
    sidebar, the path of the location and the registered listeners. *)
Record page : Type := Page {
  menuBtn : option element;
  sidebar : option element;
  overlay : option element;
  menu_items : list link;
  pathname : string;
  listeners : list listener
}.

Definition open (p : page) : page :=
  {| menuBtn := setAttribute "aria-expanded" "true" <$> menuBtn p;
     sidebar := classList_remove "-translate-x-full" <$> sidebar p;
     overlay := classList_remove "hidden" <$> overlay p;
     menu_items := menu_items p;
     pathname := pathname p;
     listeners := listeners p |}.

Definition close (p : page) : page :=
  {| menuBtn := setAttribute "aria-expanded" "false" <$> menuBtn p;
     sidebar := classList_add "-translate-x-full" <$> sidebar p;
     overlay := classList_add "hidden" <$> overlay p;
     menu_items := menu_items p;
     pathname := pathname p;
     listeners := listeners p |}.

(** [btn.getAttribute('aria-expanded') === 'true'] *)
Definition expanded (p : page) : bool :=
  strict_eq_string
    (of_attr (menuBtn p ≫= λ btn, getAttribute btn "aria-expanded")) "true".

Inductive event : Type :=
| Click (on : target)
| Keydown (key : string).

Definition event_target (e : event) : target :=
  match e with
  | Click t => t
  | Keydown _ => Window
  end.

Definition event_type (e : event) : string :=
  match e with
  | Click _ => "click"
  | Keydown _ => "keydown"
  end.

Definition invoke (cb : callback) (e : event) (p : page) : page :=
  match cb with
  | ToggleOnClick => if expanded p then close p else open p
  | Close => close p
  | CloseOnEscape =>
      match e with
      | Keydown key => if String.eqb key "Escape" then close p else p
      | Click _ => p
      end
  end.

Definition target_eqb (a b : target) : bool :=
  match a, b with
  | Btn, Btn | Overlay, Overlay | Window, Window => true
  | _, _ => false
  end.

(** The event runs, in the order of their registration, the listeners of
    its target and type (the three targets do not contain one another). *)
Definition dispatch (e : event) (p : page) : page :=
  foldl (λ q l,
           if target_eqb (listens_on l) (event_target e)
              && String.eqb (listens_to l) (event_type e)
           then invoke (calls l) e q else q)
        p (listeners p).

Definition addEventListener (t : target) (type : string) (cb : callback)
    (p : page) : page :=
  {| menuBtn := menuBtn p; sidebar := sidebar p; overlay := overlay p;
     menu_items := menu_items p; pathname := pathname p;
     listeners := listeners p ++ [Listener t type cb] |}.

Definition highlight_active (p : page) : page :=
  let path := current_path (pathname p) in
  {| menuBtn := menuBtn p; sidebar := sidebar p; overlay := overlay p;
     menu_items := highlight "active" path <$> menu_items p;
     pathname := pathname p;
     listeners := listeners p |}.

(** The script. *)
Definition init (p : page) : page :=
  match menuBtn p, sidebar p, overlay p with
  | Some _, Some _, Some _ =>
      let p := addEventListener Btn "click" ToggleOnClick p in
      let p := addEventListener Overlay "click" Close p in
      let p := addEventListener Window "keydown" CloseOnEscape p in
      highlight_active p
  | _, _, _ => p
  end.

Definition has_class (el : option element) (t : string) : bool :=
  match el with
  | Some e => ClassList.contains (classList e) t
  | None => false
  end.

(** The panel shows: the trigger says expanded, the sidebar is not
    translated out and the overlay is not hidden. *)
Definition shown (p : page) : bool :=
  expanded p
  && negb (has_class (sidebar p) "-translate-x-full")
  && negb (has_class (overlay p) "hidden").

(** The panel is closed: the trigger says not expanded, the sidebar is
    translated out and the overlay is hidden. *)
Definition closed (p : page) : bool :=
  negb (expanded p)
  && has_class (sidebar p) "-translate-x-full"
  && has_class (overlay p) "hidden".

End Menu.

(** ** menu.js, building its own button, backdrop and panel *)

Module BuiltMenu.
Import JSValue DOM.

(** What the script creates: the class lists of the backdrop and of the
    panel, [panel.style.transform], and the links of the panel. *)
Record menu : Type := Menu {
  backdrop : list string;
  panel : list string;
  panel_transform : string;
  links : list link
}.

Definition link_class : list string :=
  ["block"; "px-3"; "py-2"; "rounded"; "hover:bg-slate-800"].

(** The elements as [createElement], [className] and [innerHTML] leave
    them. *)
Definition created : menu :=
  {| backdrop := ["fixed"; "inset-0"; "z-40"; "bg-black/50"; "hidden"];
     panel := ["fixed"; "top-0"; "left-0"; "z-50"; "h-full"; "w-72";
               "max-w-[80%]"; "-translate-x-full"; "transition-transform";
               "duration-200"; "bg-slate-900"; "border-r";
               "border-slate-800"; "shadow-xl"];
     panel_transform := "";
     links := [Link (Some "/") link_class;
               Link (Some "/events") link_class;
               Link (Some "/weather") link_class;
               Link (Some "/ipx") link_class;
               Link (Some "/inputs") link_class;
               Link (Some "/health/ui") link_class] |}.

Definition open (m : menu) : menu :=
  {| backdrop := ClassList.remove (backdrop m) "hidden";
     panel := panel m;
     panel_transform := "translateX(0%)";
     links := links m |}.

Definition close (m : menu) : menu :=
  {| backdrop := ClassList.add (backdrop m) "hidden";
     panel := panel m;
     panel_transform := "translateX(-100%)";
     links := links m |}.

(** The events the script listens to: a click on the button, on the
    backdrop or on [#menu-close], and a key going down. *)
Inductive event : Type :=
| ClickBtn
| ClickBackdrop
| ClickMenuClose
| Keydown (key : string).

Definition dispatch (e : event) (m : menu) : menu :=
  match e with
  | ClickBtn => open m
  | ClickBackdrop => close m
  | ClickMenuClose => close m
  | Keydown key => if String.eqb key "Escape" then close m else m
  end.

(** The script, on a page at [pathname] that has its [document.body]:
    the panel it appends to the body, its links marked. *)
Definition init (pathname : string) : menu :=
  let path := current_path pathname in
  {| backdrop := backdrop created;
     panel := panel created;
     panel_transform := panel_transform created;
     links := highlight "bg-slate-800" path <$> links created |}.

(** The script, on any page: when it runs before the body exists,
    [document.body.appendChild(backdrop)] throws; the elements it created
    are then not on the page, and the loop that marks the links is not
    reached. *)
Definition script (body : bool) (pathname : string)
  : Shortcuts.outcome menu :=
  if body then Shortcuts.Returns (init pathname)
  else Shortcuts.Throws Shortcuts.TypeError.

(** The panel shows: the backdrop is not hidden and the panel is
    translated in. *)
Definition shown (m : menu) : bool :=
  negb (ClassList.contains (backdrop m) "hidden")
  && String.eqb (panel_transform m) "translateX(0%)".

End BuiltMenu.

(** ** shortcuts-enhance.js: the wrapper of the page's render function *)

Module Hooks.
Import Shortcuts.

(** A render function of the hosting page, as [window.loadIcons] is when
    it is a function: it may change the controls, and returns a result or
    throws. *)
Definition render (R : Type) : Type :=
  list control → list control * outcome R.

(** The function the script stores in [window.loadIcons] when the one it
    found there, [origLoadIcons], is a function:
    [res = await origLoadIcons(...); await run(); return res],
    where [f] is what the fetch of this [run] resolves to. *)
Definition wrapped {R : Type} (origLoadIcons : render R) (f : fetched)
  : render R :=
  λ doc,
    match origLoadIcons doc with
    | (doc1, Returns res) =>
        match run f doc1 None with
        | (_, Returns doc2) => (doc2, Returns res)
        | (_, Throws e) => (doc1, Throws e)
        end
    | (doc1, Throws e) => (doc1, Throws e)
    end.

End Hooks.

(** ** The dashboard script: next event, control buttons, voice command *)

Module App.
Import JSNumber JSValue Shortcuts.

(** What a request resolves to: [fetch] rejects, or gives a response with
    its [ok] flag and a body that is JSON or not; the parsed body is
    [null], or a value given by the fields the script reads of it. *)
Inductive parsed (A : Type) : Type :=
| ParsedNull
| Parsed (fields : A).
Arguments ParsedNull {A}.
Arguments Parsed {A} fields.

Inductive reply (A : Type) : Type :=
| Rejects
| Responds (ok : bool) (body : option (parsed A)).
Arguments Rejects {A}.
Arguments Responds {A} ok body.

(** [fetchJSON]: the body parsed, whatever the status of the response. *)
Definition fetchJSON {A : Type} (r : reply A) : outcome (parsed A) :=
  match r with
  | Rejects => Throws NetworkError
  | Responds _ (Some d) => Returns d
  | Responds _ None => Throws SyntaxError
  end.

(** The body of [/status/calendar/next]: what [d.summary] and [d.start]
    read. *)
Record next_event : Type := NextEvent {
  summary : field;
  start : field
}.


Section Texts.

(** [Number::toString], which the scripts reach only through template
    literals and [textContent]. *)
Variable Number_toString : spec_float → string.

(** The string a template literal or [textContent] makes of a value that
    converts. *)
Definition ToString (v : value) : string :=
  match v with
  | VUndefined => "undefined"
  | VNull => "null"
  | VBool b => if b then "true" else "false"
  | VNumber n => Number_toString n
  | VString s => s
  | VObject str => str
  end.

(** The same of a field: an object that does not convert throws. *)
Definition field_ToString (x : field) : outcome string :=
  match x with
  | Converts v => Returns (ToString v)
  | Unconvertible => Throws TypeError
  end.

(** [a || b] *)
Definition or_else (a b : field) : field :=
  if truthy a then a else b.

(** The template literal of [refreshNextEvent]: [d.summary] is converted
    first, then [d.start || ""]. *)
Definition next_text (d : next_event) : outcome string :=
  match field_ToString (summary d) with
  | Throws e => Throws e
  | Returns s =>
      match field_ToString (or_else (start d) (Converts (VString ""))) with
      | Throws e => Throws e
      | Returns t => Returns ("Next: " ++ s ++ " (" ++ t ++ ")")
      end
  end.

(** [el.textContent = text], on the text of an element that may be
    missing. *)
Definition set_text (el : option string) (text : string)
  : option string * outcome unit :=
  match el with
  | Some _ => (Some text, Returns tt)
  | None => (None, Throws TypeError)
  end.

(** [refreshNextEvent], on the text of [#next-event] (nothing when the
    page has no such element): the text afterwards, and how the call
    ends. *)
Definition refreshNextEvent (r : reply next_event) (el : option string)
  : option string * outcome unit :=
  match fetchJSON r with
  | Throws e => (el, Throws e)
  | Returns ParsedNull => (el, Throws TypeError)
  | Returns (Parsed d) =>
      if truthy (summary d) then
        match next_text d with
        | Throws e => (el, Throws e)
        | Returns text => set_text el text
        end
      else set_text el "No upcoming event"
  end.




End Texts.

(** The elements the script gives an [onclick], in its order. *)
Definition buttons : list string :=
  ["lights-on"; "lights-off"; "heat-on"; "heat-off"; "voice-btn"].

(** [document.getElementById(id).onclick = ...] for each id in turn, on a
    page that has the elements [present]: the ids that got their handler,
    and how the sequence ends (a missing element throws). *)
Fixpoint assign_onclick (present : string → bool) (ids : list string)
  : list string * outcome unit :=
  match ids with
  | [] => ([], Returns tt)
  | id :: rest =>
      if present id then
        match assign_onclick present rest with
        | (done, out) => (id :: done, out)
        end
      else ([], Throws TypeError)
  end.

(** The script: the handlers it installs, and whether it reaches its last
    statement, the call of [refreshNextEvent]. *)
Definition script (present : string → bool) : list string * bool :=
  match assign_onclick present buttons with
  | (done, Returns _) => (done, true)
  | (done, Throws _) => (done, false)
  end.

End App.

(** ** Sequences of events on the panel *)

Module PanelEvents.
Import DOM.

(** The page after the events [es], dispatched in their order. *)
Definition after (es : list Menu.event) (p : Menu.page) : Menu.page :=
  foldl (λ q e, Menu.dispatch e q) p es.

(** The same for the panel that menu.js builds itself. *)
Definition built_after (es : list BuiltMenu.event) (m : BuiltMenu.menu)
  : BuiltMenu.menu :=
  foldl (λ q e, BuiltMenu.dispatch e q) m es.

(** [q] is [p] but for the open or closed state of the panel: the links,
    the path and the listeners are the same; the trigger has the same
    classes, and the same attributes but for [aria-expanded]; the sidebar
    and the overlay have the same attributes, and the same classes but
    for [-translate-x-full] and [hidden]. *)
Definition same_but_state (p q : Menu.page) : Prop :=
  Menu.menu_items q = Menu.menu_items p
  ∧ Menu.pathname q = Menu.pathname p
  ∧ Menu.listeners q = Menu.listeners p
  ∧ classList <$> Menu.menuBtn q = classList <$> Menu.menuBtn p
  ∧ (∀ name, name ≠ "aria-expanded" →
       (Menu.menuBtn q ≫= λ el, getAttribute el name)
       = (Menu.menuBtn p ≫= λ el, getAttribute el name))
  ∧ attributes <$> Menu.sidebar q = attributes <$> Menu.sidebar p
  ∧ (∀ t, t ≠ "-translate-x-full" →
       Menu.has_class (Menu.sidebar q) t = Menu.has_class (Menu.sidebar p) t)
  ∧ attributes <$> Menu.overlay q = attributes <$> Menu.overlay p
  ∧ (∀ t, t ≠ "hidden" →
       Menu.has_class (Menu.overlay q) t = Menu.has_class (Menu.overlay p) t).

End PanelEvents.

(** ** The specification's wording *)

Module Spec.
Import JSNumber JSValue Shortcuts.

Definition truthy_words : list string := ["1"; "true"; "on"; "yes"].

(** Section 4.2, the values the coercion rule makes true: the literal
    [true], a Number that is not zero, or a string that, trimmed and in
    lower case, is one of "1", "true", "on", "yes". *)
Definition coerces_true (v : value) : Prop :=
  v = VBool true
  ∨ (∃ n, v = VNumber n ∧ is_zero n = false)
  ∨ (∃ s, v = VString s
          ∧ JSString.toLowerCase (JSString.trim s)
            ∈ truthy_words).

(** The entry's [relay] field is the integer [k]. *)
Definition relay_is (k : Z) (it : item) : bool :=
  match it with
  | It (VNumber n) _ => bool_decide (integer_value n = Some k)
  | _ => false
  end.

(** The [on] field of the last entry whose [relay] field is the
    integer [k]. *)
Definition last_on (k : Z) (items : list item) : option value :=
  match last (filter (λ it, relay_is k it = true) items) with
  | Some (It _ on) => Some on
  | _ => None
  end.

(** A malformed entry: its [relay] is not an integer, or is an integer
    outside [1,32]. *)
Definition malformed (relay : value) : Prop :=
  match relay with
  | VNumber n =>
      match integer_value n with
      | Some k => ¬ (1 ≤ k ≤ 32)
      | None => True
      end
  | _ => True
  end.

(** Section 4.2, [reconcile]: the on-state of a control is
    [snapshot[ipxIndex]] ([false] without snapshot or from index 32 on)
    if its source is "ipx" and its index is a finite integer that is not
    negative, and the coercion of its displayed text otherwise. *)
Definition on_state (states : option snapshot) (btn : control) : bool :=
  match source btn, integer_value (ToNumber (of_attr (ipxIndex btn))) with
  | Some "ipx", Some k =>
      if 0 <=? k then
        match states with
        | Some arr => default false (arr !! Z.to_nat k)
        | None => false
        end
      else toBool (VString (default "" (display btn)))
  | _, _ => toBool (VString (default "" (display btn)))
  end.

End Spec.

(** * Properties *)

(** ** Token lists *)

Section ClassListFacts.
Import ClassList.
Implicit Types (l : list string) (t u : string).

Lemma contains_true l t : contains l t = true ↔ t ∈ l.
Proof. unfold contains. apply bool_decide_eq_true. Qed.

Lemma contains_false l t : contains l t = false ↔ t ∉ l.
Proof. unfold contains. apply bool_decide_eq_false. Qed.

Lemma elem_of_add l t u : u ∈ add l t ↔ u ∈ l ∨ u = t.
Proof.
  unfold add. destruct (contains l t) eqn:E.
  - apply contains_true in E. split; [auto | intros [?| ->]; auto].
  - rewrite elem_of_app, list_elem_of_singleton. tauto.
Qed.

Lemma elem_of_remove l t u : u ∈ remove l t ↔ u ∈ l ∧ u ≠ t.
Proof. unfold remove. rewrite list_elem_of_filter. tauto. Qed.

Lemma contains_add l t : contains (add l t) t = true.
Proof. apply contains_true, elem_of_add. auto. Qed.

Lemma contains_remove l t : contains (remove l t) t = false.
Proof. apply contains_false. rewrite elem_of_remove. tauto. Qed.

Lemma contains_toggle l t force : contains (toggle l t force) t = force.
Proof.
  destruct force; simpl; [apply contains_add | apply contains_remove].
Qed.

Lemma add_present l t : t ∈ l → add l t = l.
Proof.
  intros H. unfold add. apply contains_true in H. now rewrite H.
Qed.

Lemma add_add l t : add (add l t) t = add l t.
Proof. apply add_present, elem_of_add. auto. Qed.

End ClassListFacts.

(** ** Strings and numbers *)

Section ConversionFacts.
Import JSString JSNumber JSValue.

Lemma trimStart_all_space s : all_space s = true → trimStart s = "".
Proof.
  induction s as [|c s IH]; simpl; [reflexivity|].
  intros [Hc Hs]%andb_true_iff. rewrite Hc. auto.
Qed.

Lemma trim_all_space s : all_space s = true → trim s = "".
Proof. intros H. unfold trim. now rewrite trimStart_all_space. Qed.

Lemma StringToNumber_all_space s :
  all_space s = true → StringToNumber s = pos_zero.
Proof. intros H. unfold StringToNumber. now rewrite trim_all_space. Qed.

Lemma wrap32_small k : - 2 ^ 31 ≤ k < 2 ^ 31 → wrap32 k = k.
Proof.
  intros Hk. unfold wrap32.
  destruct (Z_lt_le_dec k 0) as [Hneg|Hpos].
  - replace (k mod 2 ^ 32) with (k + 2 ^ 32).
    + destruct (Z.leb_spec (2 ^ 31) (k + 2 ^ 32)); lia.
    + apply Z.mod_unique with (q := -1); lia.
  - rewrite Z.mod_small by lia.
    destruct (Z.leb_spec (2 ^ 31) k); lia.
Qed.

(** On a Number that is an integer of the signed 32-bit range, [| 0] is
    the identity. *)
Lemma ToInt32_integer n k :
  integer_value n = Some k → - 2 ^ 31 ≤ k < 2 ^ 31 → ToInt32 n = k.
Proof.
  destruct n as [s| | |s m e]; simpl; try discriminate.
  - intros [= <-] _. reflexivity.
  - intros Hv Hk.
    assert (Hmag : (if s then - Z.shiftl (Z.pos m) e
                    else Z.shiftl (Z.pos m) e) = k).
    { destruct (Z.leb_spec 0 e) as [He|He].
      - rewrite Z.shiftl_mul_pow2 by lia.
        simpl in Hv. injection Hv as <-. reflexivity.
      - rewrite Z.shiftl_div_pow2 by lia.
        destruct (Z.pos m mod 2 ^ (- e) =? 0); simpl in Hv;
          [injection Hv as <-; reflexivity | discriminate]. }
    rewrite Hmag. now apply wrap32_small.
Qed.

(** Without a finite value, [| 0] is 0. *)
Lemma ToInt32_not_finite n : isFinite n = false → ToInt32 n = 0.
Proof. destruct n; simpl; congruence. Qed.

Lemma integer_value_finite n k : integer_value n = Some k → isFinite n = true.
Proof. destruct n; simpl; congruence. Qed.

End ConversionFacts.

(** ** The coercion helper *)

Section ToBool.
Import JSString JSNumber JSValue Shortcuts.

Lemma word_test s :
  (String.eqb s "1" || String.eqb s "true"
   || String.eqb s "on" || String.eqb s "yes") = true
  ↔ s ∈ Spec.truthy_words.
Proof.
  unfold Spec.truthy_words.
  rewrite !orb_true_iff, !String.eqb_eq, !elem_of_cons, elem_of_nil.
  tauto.
Qed.

(** The inputs listed in section 8 of the specification. *)
Example toBool_listed_inputs :
  toBool (VBool true) = true ∧ toBool (VBool false) = false
  ∧ toBool (VNumber (of_Z 1)) = true ∧ toBool (VNumber (of_Z 0)) = false
  ∧ toBool (VString "1") = true ∧ toBool (VString "0") = false
  ∧ toBool (VString "true") = true ∧ toBool (VString "TRUE") = true
  ∧ toBool (VString "on") = true ∧ toBool (VString "Yes") = true
  ∧ toBool (VString "") = false
  ∧ toBool VNull = false ∧ toBool VUndefined = false
  ∧ toBool (VNumber (StringToNumber "3.5")) = true
  ∧ toBool (VNumber (of_Z (-1))) = true.
Proof. vm_compute. repeat split. Qed.

(** C4, as the code has it: [toBool v] is true exactly when [v] is the
    boolean [true], a Number other than zero, or a string, or an object
    converted to a string by [String(v)], that trimmed and in lower case
    is one of "1", "true", "on", "yes".  It is false for all other values:
    [null], [undefined], both zeros, [false], and every other string. *)
Theorem toBool_true_iff (v : value) :
  toBool v = true
  ↔ v = VBool true
    ∨ (∃ n, v = VNumber n ∧ is_zero n = false)
    ∨ (∃ s, (v = VString s ∨ v = VObject s)
            ∧ toLowerCase (trim s) ∈ Spec.truthy_words).
Proof.
  destruct v as [| |b|n|s|s]; simpl.
  - split; [discriminate|].
    intros [?|[(? & ? & _)|(? & [?|?] & _)]]; discriminate.
  - split; [discriminate|].
    intros [?|[(? & ? & _)|(? & [?|?] & _)]]; discriminate.
  - split; [intros ->; auto|].
    intros [[= ->]|[(? & ? & _)|(? & [?|?] & _)]];
      [reflexivity | discriminate..].
  - rewrite negb_true_iff. split.
    + intros H. right; left. eauto.
    + intros [?|[(? & [= <-] & Hnz)|(? & [?|?] & _)]];
        [discriminate | exact Hnz | discriminate..].
  - rewrite word_test. split.
    + intros H. right; right. eauto.
    + intros [?|[(? & ? & _)|(? & [[= <-]|?] & Hw)]];
        [discriminate.. | exact Hw | discriminate].
  - rewrite word_test. split.
    + intros H. right; right. eauto.
    + intros [?|[(? & ? & _)|(? & [?|[= <-]] & Hw)]];
        [discriminate.. | exact Hw].
Qed.

(** C4 as stated fails on an array: [toBool(["on"])] is true, and
    [["on"]] is neither [true], nor a Number, nor a string. *)
Lemma toBool_object_counterexample :
  toBool (VObject "on") = true ∧ ¬ Spec.coerces_true (VObject "on").
Proof.
  split; [reflexivity|].
  intros [?|[(? & ? & _)|(? & ? & _)]]; discriminate.
Qed.

End ToBool.

(** ** Building the snapshot *)

Section Snapshot.
Import JSNumber JSValue Shortcuts.
Implicit Types (arr : snapshot) (items : list item) (r o : value).

Ltac exec := unfold mbind, js_bind, mret, js_ret, throw, get_states,
               set_states; simpl.

Lemma visit_null st : visit ItNull st = (st, Throws TypeError).
Proof. reflexivity. Qed.

Lemma visit_entry r o arr :
  visit (It r o) (Some arr)
  = (Some (if (0 <=? bitor0 r - 1) && (bitor0 r - 1 <? Z.of_nat (length arr))
           then <[Z.to_nat (bitor0 r - 1) := ToBoolean o]> arr
           else arr),
     Returns tt).
Proof.
  unfold visit. exec.
  destruct ((0 <=? bitor0 r - 1) && (bitor0 r - 1 <? Z.of_nat (length arr)));
    reflexivity.
Qed.

Lemma forEach_cons_entry r o items arr :
  forEach (It r o :: items) (Some arr)
  = forEach items
      (Some (if (0 <=? bitor0 r - 1)
                && (bitor0 r - 1 <? Z.of_nat (length arr))
             then <[Z.to_nat (bitor0 r - 1) := ToBoolean o]> arr
             else arr)).
Proof.
  change (forEach (It r o :: items))
    with (visit (It r o) ≫= λ _, forEach items).
  unfold mbind, js_bind. now rewrite visit_entry.
Qed.

Lemma forEach_cons_null items st :
  forEach (ItNull :: items) st = (st, Throws TypeError).
Proof. reflexivity. Qed.

(** The loop leaves an array of the same length in [states]. *)
Lemma forEach_length items : ∀ arr,
  ∃ arr' out, forEach items (Some arr) = (Some arr', out)
              ∧ length arr' = length arr.
Proof.
  induction items as [|[|r o|] items IH]; intros arr.
  - exists arr, (Returns tt). split; reflexivity.
  - exists arr, (Throws TypeError). split; reflexivity.
  - rewrite forEach_cons_entry.
    destruct (IH (if (0 <=? bitor0 r - 1)
                     && (bitor0 r - 1 <? Z.of_nat (length arr))
                  then <[Z.to_nat (bitor0 r - 1) := ToBoolean o]> arr
                  else arr)) as (arr' & out & E & L).
    exists arr', out. split; [exact E|].
    rewrite L. destruct (_ && _); [apply length_insert | reflexivity].
  - exists arr, (Throws TypeError). split; reflexivity.
Qed.

(** Without an element that throws the loop runs to its end. *)
Lemma forEach_returns items : ∀ arr,
  ItNull ∉ items → ItUnconvertible ∉ items →
  ∃ arr', forEach items (Some arr) = (Some arr', Returns tt)
          ∧ length arr' = length arr.
Proof.
  induction items as [|[|r o|] items IH]; intros arr Hnn Hnu.
  - exists arr. split; reflexivity.
  - exfalso. apply Hnn. left.
  - rewrite forEach_cons_entry.
    rewrite not_elem_of_cons in Hnn. destruct Hnn as [_ Hnn].
    rewrite not_elem_of_cons in Hnu. destruct Hnu as [_ Hnu].
    destruct (IH (if (0 <=? bitor0 r - 1)
                     && (bitor0 r - 1 <? Z.of_nat (length arr))
                  then <[Z.to_nat (bitor0 r - 1) := ToBoolean o]> arr
                  else arr) Hnn Hnu) as (arr' & E & L).
    exists arr'. split; [exact E|].
    rewrite L. destruct (_ && _); [apply length_insert | reflexivity].
  - exfalso. apply Hnu. left.
Qed.

Lemma forEach_app items1 items2 st :
  forEach (items1 ++ items2) st
  = match forEach items1 st with
    | (st', Returns _) => forEach items2 st'
    | (st', Throws e) => (st', Throws e)
    end.
Proof.
  revert st. induction items1 as [|it items1 IH]; intros st.
  - reflexivity.
  - simpl. unfold mbind, js_bind.
    destruct (visit it st) as [st' [[]|e]]; [apply IH | reflexivity].
Qed.

(** Entries that coerce to other relay numbers leave the slot of relay
    [k] as it is. *)
Lemma forEach_other_slot k items : ∀ arr arr' out,
  1 ≤ k →
  (∀ r o, It r o ∈ items → bitor0 r ≠ k) →
  forEach items (Some arr) = (Some arr', out) →
  arr' !! Z.to_nat (k - 1) = arr !! Z.to_nat (k - 1).
Proof.
  induction items as [|[|r o|] items IH]; intros arr arr' out Hk Hne E.
  - injection E as <- _. reflexivity.
  - injection E as <- _. reflexivity.
  - rewrite forEach_cons_entry in E.
    assert (Hr : bitor0 r ≠ k) by (eapply Hne; left).
    rewrite (IH _ _ _ Hk (λ r' o' H', Hne r' o' (list_elem_of_further _ _ _ H')) E).
    destruct (Z.leb_spec 0 (bitor0 r - 1)); simpl; [|reflexivity].
    destruct (_ <? _); [|reflexivity].
    apply list_lookup_insert_ne. lia.
  - injection E as <- _. reflexivity.
Qed.

Lemma snapshot_of_relays items :
  snapshot_of (fetched_relays items)
  = (forEach items (Some (replicate 32 false))).1.
Proof.
  unfold snapshot_of, fetched_relays, try_catch_ignore, try_fetch. exec.
  destruct (forEach items _) as [st [[]|e]]; reflexivity.
Qed.

(** The entry [It r o], reached by the loop and not overridden after it,
    decides the slot of the relay number [r | 0]. *)
Lemma snapshot_slot before r o after k :
  ItNull ∉ before → ItUnconvertible ∉ before →
  bitor0 r = k → 1 ≤ k ≤ 32 →
  (∀ r' o', It r' o' ∈ after → bitor0 r' ≠ k) →
  ∃ arr, snapshot_of (fetched_relays (before ++ It r o :: after)) = Some arr
         ∧ length arr = 32%nat
         ∧ arr !! Z.to_nat (k - 1) = Some (ToBoolean o).
Proof.
  intros Hnn Hnu Hr Hk Hafter. rewrite snapshot_of_relays, forEach_app.
  destruct (forEach_returns before (replicate 32 false) Hnn Hnu)
    as (arr1 & -> & L1).
  rewrite length_replicate in L1. rewrite forEach_cons_entry, L1, Hr.
  replace ((0 <=? k - 1) && (k - 1 <? Z.of_nat 32)) with true
    by (symmetry; apply andb_true_iff; split;
        [apply Z.leb_le | apply Z.ltb_lt]; lia).
  destruct (forEach_length after (<[Z.to_nat (k - 1) := ToBoolean o]> arr1))
    as (arr & out & E & L).
  rewrite E. exists arr. split; [reflexivity|]. split.
  - rewrite L, length_insert. exact L1.
  - rewrite (forEach_other_slot k after _ _ _ (proj1 Hk) Hafter E).
    apply list_lookup_insert_eq. lia.
Qed.

End Snapshot.

(** ** Relay entries *)

Section Entries.
Import JSNumber JSValue Shortcuts.
Implicit Types (arr : list bool) (items : list item) (r o : value).

(** [reconcile] returns: it paints every control from the snapshot. *)
Lemma reconcile_paint f doc :
  reconcile f doc = Returns (paint (snapshot_of f) <$> doc).
Proof.
  unfold reconcile, run, snapshot_of, applyFromIPX.
  unfold mbind, js_bind, mret, js_ret, get_states, set_states,
    try_catch_ignore.
  destruct (try_fetch f None) as [st out]. reflexivity.
Qed.

(** An entry whose relay number falls outside the array is skipped. *)
Lemma forEach_skip before r o after : ∀ arr,
  length arr = 32%nat →
  ¬ (1 ≤ bitor0 r ≤ 32) →
  forEach (before ++ It r o :: after) (Some arr)
  = forEach (before ++ after) (Some arr).
Proof.
  induction before as [|[|r' o'|] before IH]; intros arr L Hr.
  - simpl app. rewrite forEach_cons_entry, L.
    replace ((0 <=? bitor0 r - 1) && (bitor0 r - 1 <? Z.of_nat 32))
      with false; [reflexivity|].
    symmetry. apply andb_false_iff.
    rewrite Z.leb_gt, Z.ltb_ge. lia.
  - reflexivity.
  - rewrite <- !app_comm_cons, !forEach_cons_entry.
    apply IH; [|exact Hr].
    destruct (_ && _); [rewrite length_insert|]; exact L.
  - reflexivity.
Qed.

(** What [| 0] makes of a [relay] field: nothing numeric gives 0, an
    integer of the signed 32-bit range gives itself. *)
Lemma bitor0_values :
  bitor0 VUndefined = 0 ∧ bitor0 VNull = 0 ∧ bitor0 (VBool false) = 0
  ∧ (∀ r, isFinite (ToNumber r) = false → bitor0 r = 0)
  ∧ (∀ r k, integer_value (ToNumber r) = Some k →
            - 2 ^ 31 ≤ k < 2 ^ 31 → bitor0 r = k).
Proof.
  repeat split; try reflexivity.
  - intros r H. now apply ToInt32_not_finite.
  - intros r k H Hk. now apply ToInt32_integer.
Qed.

(** Scenario C of the specification: relay 33 is ignored, and the control
    of index 0 is painted on from relay 1. *)
Example scenario_C :
  let f := fetched_relays [It (VNumber (of_Z 1)) (VBool true);
                           It (VNumber (of_Z 33)) (VBool true)] in
  snapshot_of f = Some (true :: replicate 31 false)
  ∧ reconcile f [Control (Some "ipx") (Some "0") None ["icon-btn"]]
    = Returns [Control (Some "ipx") (Some "0") None ["icon-btn"; "is-on"]].
Proof. split; vm_compute; reflexivity. Qed.

(** C1, as the code has it: after a successful fetch, take an entry whose
    [relay] is coerced by [| 0] to a number [k] of [1,32], as every
    [relay] that is an integer of [1,32] is, and that the loop reaches: no
    element before it in the payload is [null] or has a [relay] that does
    not convert, either of which ends the loop.  Then the slot [k - 1] of
    the snapshot holds the truthiness [!!on] of its [on] field, provided
    no later entry has a [relay] that [| 0] coerces to [k]: among the
    entries coerced to the same relay number the last one decides the
    slot. *)
Theorem snapshot_last_entry_wins before r o after k :
  ItNull ∉ before → ItUnconvertible ∉ before →
  bitor0 r = k → 1 ≤ k ≤ 32 →
  (∀ r' o', It r' o' ∈ after → bitor0 r' ≠ k) →
  (∃ arr,
     snapshot_of (fetched_relays (before ++ It r o :: after)) = Some arr
     ∧ arr !! Z.to_nat (k - 1) = Some (ToBoolean o))
  ∧ ∀ n, integer_value n = Some k → bitor0 (VNumber n) = k.
Proof.
  intros Hnn Hnu Hr Hk Hafter. split.
  - destruct (snapshot_slot before r o after k Hnn Hnu Hr Hk Hafter)
      as (arr & E & _ & Hslot).
    exists arr. split; assumption.
  - intros n Hn. apply ToInt32_integer; [exact Hn | lia].
Qed.

Lemma snapshot_last_entry_wins_witness :
  ∃ arr,
    snapshot_of
      (fetched_relays
         ([It (VNumber (of_Z 1)) (VBool true);
           It (VString "2") (VBool false)]
          ++ It (VNumber (of_Z 2)) (VString "x")
          :: [It (VNumber (of_Z 33)) (VBool true); ItUnconvertible]))
    = Some arr
    ∧ arr !! Z.to_nat (2 - 1) = Some (ToBoolean (VString "x")).
Proof.
  apply (snapshot_last_entry_wins
           [It (VNumber (of_Z 1)) (VBool true);
            It (VString "2") (VBool false)]
           (VNumber (of_Z 2)) (VString "x")
           [It (VNumber (of_Z 33)) (VBool true); ItUnconvertible] 2).
  - intros H. repeat (apply elem_of_cons in H as [H|H]; [discriminate H|]).
    now apply elem_of_nil in H.
  - intros H. repeat (apply elem_of_cons in H as [H|H]; [discriminate H|]).
    now apply elem_of_nil in H.
  - reflexivity.
  - lia.
  - intros r' o' H. apply elem_of_cons in H as [[= -> _]|H].
    + vm_compute. discriminate.
    + apply list_elem_of_singleton in H. discriminate H.
Defined.

(** C1 as stated fails: in [[{relay:1,on:true},{relay:1.5,on:false}]] the
    last (and only) entry whose relay is the integer 1 has [on] true, and
    slot 0 ends false, set by the entry whose relay 1.5 is coerced to 1. *)
Lemma last_integer_entry_counterexample :
  let items := [It (VNumber (of_Z 1)) (VBool true);
                It (VNumber (of_ratio false 3 2)) (VBool false)] in
  Spec.last_on 1 items = Some (VBool true)
  ∧ (snapshot_of (fetched_relays items) ≫= λ arr, arr !! 0%nat)
    = Some false.
Proof. split; vm_compute; reflexivity. Qed.

(** C2, as the code has it: an entry whose [relay], coerced by [| 0], is
    outside [1,32] is ignored: with or without it the snapshot is the same
    and [reconcile] returns the same controls, the entries after it being
    processed as without it. *)
Theorem out_of_range_entry_ignored before r o after :
  ¬ (1 ≤ bitor0 r ≤ 32) →
  snapshot_of (fetched_relays (before ++ It r o :: after))
  = snapshot_of (fetched_relays (before ++ after))
  ∧ ∀ doc,
      reconcile (fetched_relays (before ++ It r o :: after)) doc
      = reconcile (fetched_relays (before ++ after)) doc
      ∧ ∃ doc',
          reconcile (fetched_relays (before ++ It r o :: after)) doc
          = Returns doc'.
Proof.
  intros Hr.
  assert (E : snapshot_of (fetched_relays (before ++ It r o :: after))
              = snapshot_of (fetched_relays (before ++ after))).
  { rewrite !snapshot_of_relays, forEach_skip;
      [reflexivity | apply length_replicate | exact Hr]. }
  split; [exact E|]. intros doc. rewrite !reconcile_paint, E.
  split; [reflexivity | eauto].
Qed.

Lemma out_of_range_entry_ignored_witness :
  snapshot_of
    (fetched_relays
       ([It (VNumber (of_Z 1)) (VBool true)]
        ++ It (VNumber (of_Z 33)) (VBool true)
        :: [It (VNumber (of_Z 2)) (VBool true)]))
  = snapshot_of
      (fetched_relays
         ([It (VNumber (of_Z 1)) (VBool true)]
          ++ [It (VNumber (of_Z 2)) (VBool true)])).
Proof.
  apply (out_of_range_entry_ignored
           [It (VNumber (of_Z 1)) (VBool true)]
           (VNumber (of_Z 33)) (VBool true)
           [It (VNumber (of_Z 2)) (VBool true)]).
  vm_compute. intros [_ H]. apply H. reflexivity.
Defined.

(** C2 as stated fails on a relay that is not an integer: the entry
    [{relay:1.5,on:true}] is not ignored, it sets slot 0.  So does the
    entry [{relay:4294967297,on:true}], whose relay is 2^32 + 1. *)
Lemma fractional_relay_counterexample :
  let r := VNumber (of_ratio false 3 2) in
  let r' := VNumber (of_Z 4294967297) in
  Spec.malformed r
  ∧ snapshot_of (fetched_relays [It r (VBool true)])
    ≠ snapshot_of (fetched_relays [])
  ∧ Spec.malformed r'
  ∧ snapshot_of (fetched_relays [It r' (VBool true)])
    ≠ snapshot_of (fetched_relays []).
Proof.
  repeat split; vm_compute; try discriminate. intros [_ H]. now apply H.
Qed.

End Entries.

(** ** Painting the controls *)

Section Paint.
Import JSString JSNumber JSValue Shortcuts.
Implicit Types (arr : list bool) (btn : control) (doc : list control).

(** The text a control falls back to. *)
Lemma is_on_applyFromText btn :
  is_on (applyFromText btn) = toBool (VString (default "" (display btn))).
Proof.
  unfold applyFromText, is_on, toggle_is_on. simpl classList.
  rewrite contains_toggle. now destruct (display btn).
Qed.

Lemma ToBoolean_array_get arr idx0 :
  ToBoolean (array_get arr idx0)
  = match integer_value idx0 with
    | Some k => (0 <=? k) && default false (arr !! Z.to_nat k)
    | None => false
    end.
Proof.
  unfold array_get. destruct (integer_value idx0) as [k|]; [|reflexivity].
  destruct (0 <=? k); [|reflexivity].
  now destruct (arr !! Z.to_nat k).
Qed.

(** The on-state [paint] leaves on a control. *)
Lemma is_on_paint states btn :
  is_on (paint states btn)
  = let idx0 := ToNumber (of_attr (ipxIndex btn)) in
    if strict_eq_string (of_attr (source btn)) "ipx" && isFinite idx0 then
      match states, integer_value idx0 with
      | Some arr, Some k => (0 <=? k) && default false (arr !! Z.to_nat k)
      | _, _ => false
      end
    else toBool (VString (default "" (display btn))).
Proof.
  unfold paint. cbv zeta.
  destruct (strict_eq_string _ _ && isFinite _).
  - unfold is_on, toggle_is_on. simpl classList. rewrite contains_toggle.
    destruct states as [arr|].
    + apply ToBoolean_array_get.
    + reflexivity.
  - apply is_on_applyFromText.
Qed.

(** [paint] changes the class list only. *)
Lemma paint_attrs states btn :
  source (paint states btn) = source btn
  ∧ ipxIndex (paint states btn) = ipxIndex btn
  ∧ display (paint states btn) = display btn.
Proof.
  unfold paint, applyFromText. cbv zeta.
  destruct (strict_eq_string _ _ && isFinite _); repeat split.
Qed.

Lemma reconcile_lookup f doc i btn :
  doc !! i = Some btn →
  ∃ doc', reconcile f doc = Returns doc'
          ∧ length doc' = length doc
          ∧ doc' !! i = Some (paint (snapshot_of f) btn).
Proof.
  intros H. exists (paint (snapshot_of f) <$> doc).
  split; [apply reconcile_paint|]. split; [apply length_fmap|].
  now rewrite list_lookup_fmap, H.
Qed.

(** A snapshot has the 32 slots of [new Array(32)]. *)
Lemma snapshot_of_length f arr :
  snapshot_of f = Some arr → length arr = 32%nat.
Proof.
  destruct f as [|[[] [[|[| items |]]|]]]; try discriminate;
    try (intros [= <-]; reflexivity).
  change (snapshot_of (fetched_relays items) = Some arr → length arr = 32%nat).
  rewrite snapshot_of_relays.
  destruct (forEach_length items (replicate 32 false)) as (arr' & out & -> & L).
  intros [= <-]. exact L.
Qed.

Lemma snapshot_of_failed f : fetch_failed f = true → snapshot_of f = None.
Proof.
  destruct f as [|[[] [j|]]]; try reflexivity.
  intros H. discriminate H.
Qed.

(** C3, as the code has it: [reconcile] returns, and gives every control
    its on-state as follows.  If its source is "ipx" and its ipxIndex
    converts to a finite Number, the on-state is [snapshot[ipxIndex]] when
    there is a snapshot and the index is an integer from 0 to 31, and false
    otherwise (no snapshot, an index from 32 on, a negative or fractional
    index).  For every other control (another source, no ipxIndex, an
    ipxIndex that converts to NaN or an infinity) it is the coercion by
    [toBool] of the displayed text.  Nothing but the class list of the
    control changes. *)
Theorem reconcile_control f doc i btn :
  doc !! i = Some btn →
  ∃ doc' btn',
    reconcile f doc = Returns doc' ∧ doc' !! i = Some btn'
    ∧ source btn' = source btn ∧ ipxIndex btn' = ipxIndex btn
    ∧ display btn' = display btn
    ∧ is_on btn'
      = let idx0 := ToNumber (of_attr (ipxIndex btn)) in
        if strict_eq_string (of_attr (source btn)) "ipx" && isFinite idx0 then
          match snapshot_of f, integer_value idx0 with
          | Some arr, Some k =>
              (0 <=? k) && (k <? 32) && default false (arr !! Z.to_nat k)
          | _, _ => false
          end
        else toBool (VString (default "" (display btn))).
Proof.
  intros H. destruct (reconcile_lookup f doc i btn H) as (doc' & E & _ & Hi).
  exists doc', (paint (snapshot_of f) btn).
  destruct (paint_attrs (snapshot_of f) btn) as (Hs & Hx & Hd).
  repeat (split; [assumption|]).
  rewrite is_on_paint. cbv zeta.
  destruct (strict_eq_string _ _ && isFinite _); [|reflexivity].
  destruct (snapshot_of f) as [arr|] eqn:Es; [|reflexivity].
  destruct (integer_value _) as [k|]; [|reflexivity].
  destruct (Z.leb_spec 0 k) as [Hk|Hk]; [|reflexivity].
  destruct (Z.ltb_spec k 32) as [Hk'|Hk']; [reflexivity|].
  apply snapshot_of_length in Es.
  rewrite (lookup_ge_None_2 arr (Z.to_nat k)) by lia. reflexivity.
Qed.

Lemma reconcile_control_witness :
  ∃ doc' btn',
    reconcile (fetched_relays [It (VNumber (of_Z 3)) (VBool true)])
      [Control (Some "ipx") (Some "2") (Some "off") ["icon-btn"]]
    = Returns doc'
    ∧ doc' !! 0%nat = Some btn' ∧ is_on btn' = true.
Proof.
  destruct (reconcile_control
              (fetched_relays [It (VNumber (of_Z 3)) (VBool true)])
              [Control (Some "ipx") (Some "2") (Some "off") ["icon-btn"]]
              0%nat
              (Control (Some "ipx") (Some "2") (Some "off") ["icon-btn"])
              eq_refl)
    as (doc' & btn' & E & Hi & _ & _ & _ & Hon).
  exists doc', btn'. split; [exact E|]. split; [exact Hi|].
  rewrite Hon. vm_compute. reflexivity.
Defined.

(** C3 as stated fails on a negative index: with source "ipx", ipxIndex
    "-1" and the text "ON", the specification reads the text (on), the
    code takes the ipx branch and paints the control off. *)
Lemma negative_index_counterexample :
  let btn := Control (Some "ipx") (Some "-1") (Some "ON") ["icon-btn"] in
  integer_value (ToNumber (of_attr (ipxIndex btn))) = Some (-1)
  ∧ Spec.on_state None btn = true
  ∧ reconcile FetchRejected [btn] = Returns [btn]
  ∧ is_on btn = false.
Proof. repeat split. Qed.

End Paint.

(** ** A failed fetch, and a blank index *)

Section Fallback.
Import JSString JSNumber JSValue Shortcuts.
Implicit Types (btn : control) (doc : list control).

(** C5: when the fetch fails (it rejects, the response is not ok, or its
    body is not JSON), [reconcile] returns (no exception escapes), the
    snapshot is [null], every control with source "ipx" and a finite index
    is painted off and every other control is painted from its text.  With
    a control of source "ipx" and ipxIndex 2 and a control of source
    "other" that displays "ON", the first ends off and the second on. *)
Theorem failed_fetch_fallback f doc :
  fetch_failed f = true →
  snapshot_of f = None
  ∧ (∃ doc',
       reconcile f doc = Returns doc' ∧ length doc' = length doc
       ∧ ∀ i btn, doc !! i = Some btn →
           ∃ btn', doc' !! i = Some btn'
             ∧ is_on btn'
               = if strict_eq_string (of_attr (source btn)) "ipx"
                    && isFinite (ToNumber (of_attr (ipxIndex btn)))
                 then false
                 else toBool (VString (default "" (display btn))))
  ∧ (∀ text1 classes1 index2 classes2,
       ∃ btn1 btn2,
         reconcile f [Control (Some "ipx") (Some "2") text1 classes1;
                      Control (Some "other") index2 (Some "ON") classes2]
         = Returns [btn1; btn2]
         ∧ is_on btn1 = false ∧ is_on btn2 = true).
Proof.
  intros Hf. pose proof (snapshot_of_failed f Hf) as Hs.
  split; [exact Hs|]. split.
  - exists (paint (snapshot_of f) <$> doc).
    split; [apply reconcile_paint|]. split; [apply length_fmap|].
    intros i btn Hi. exists (paint (snapshot_of f) btn).
    split; [now rewrite list_lookup_fmap, Hi|].
    rewrite is_on_paint, Hs. reflexivity.
  - intros text1 classes1 index2 classes2.
    rewrite reconcile_paint, Hs. simpl fmap.
    eexists _, _. split; [reflexivity|].
    rewrite !is_on_paint. split; reflexivity.
Qed.

Lemma failed_fetch_fallback_witness :
  snapshot_of FetchRejected = None
  ∧ ∃ btn1 btn2,
      reconcile FetchRejected
        [Control (Some "ipx") (Some "2") (Some "ON") ["icon-btn"; "is-on"];
         Control (Some "other") None (Some "ON") ["icon-btn"]]
      = Returns [btn1; btn2]
      ∧ is_on btn1 = false ∧ is_on btn2 = true.
Proof.
  destruct (failed_fetch_fallback FetchRejected [] eq_refl) as (Hs & _ & Hb).
  split; [exact Hs|].
  exact (Hb (Some "ON") ["icon-btn"; "is-on"] None ["icon-btn"]).
Defined.

(** C10: a control with source "ipx" whose ipxIndex is the empty string or
    white space is an ipx control of index 0: the conversion of such a
    string to a Number is the finite [+0], so [reconcile] gives it the
    on-state of slot 0 of the snapshot (off without a snapshot), whatever
    its text, as it does for the same control with ipxIndex "0". *)
Theorem blank_index_is_slot_zero f doc i btn ws :
  doc !! i = Some btn →
  source btn = Some "ipx" → ipxIndex btn = Some ws →
  all_space ws = true →
  ToNumber (VString ws) = pos_zero
  ∧ ∃ doc' btn',
      reconcile f doc = Returns doc' ∧ doc' !! i = Some btn'
      ∧ is_on btn'
        = match snapshot_of f with
          | Some arr => default false (arr !! 0%nat)
          | None => false
          end
      ∧ is_on btn'
        = is_on (paint (snapshot_of f)
                   (Control (source btn) (Some "0") (display btn)
                      (classList btn))).
Proof.
  intros Hi Hsrc Hidx Hws.
  pose proof (StringToNumber_all_space ws Hws) as Hz.
  split; [exact Hz|].
  destruct (reconcile_lookup f doc i btn Hi) as (doc' & E & _ & Hi').
  exists doc', (paint (snapshot_of f) btn).
  split; [exact E|]. split; [exact Hi'|].
  rewrite !is_on_paint. simpl source; simpl ipxIndex.
  rewrite Hsrc, Hidx. simpl of_attr. simpl ToNumber. rewrite Hz.
  split; reflexivity.
Qed.

Lemma blank_index_is_slot_zero_witness :
  ∃ doc' btn',
    reconcile (fetched_relays [It (VNumber (of_Z 1)) (VBool true)])
      [Control (Some "ipx") (Some "  ") (Some "off") ["icon-btn"]]
    = Returns doc'
    ∧ doc' !! 0%nat = Some btn' ∧ is_on btn' = true.
Proof.
  destruct (blank_index_is_slot_zero
              (fetched_relays [It (VNumber (of_Z 1)) (VBool true)])
              [Control (Some "ipx") (Some "  ") (Some "off") ["icon-btn"]]
              0%nat
              (Control (Some "ipx") (Some "  ") (Some "off") ["icon-btn"])
              "  " eq_refl eq_refl eq_refl eq_refl)
    as (_ & doc' & btn' & E & Hi & Hon & _).
  exists doc', btn'. split; [exact E|]. split; [exact Hi|].
  rewrite Hon. vm_compute. reflexivity.
Defined.

End Fallback.

(** ** The navigation panel *)

Section Panel.
Import JSValue DOM.

Lemma classList_add_add t el :
  classList_add t (classList_add t el) = classList_add t el.
Proof. unfold classList_add. simpl. now rewrite add_add. Qed.

Lemma setAttribute_setAttribute name v w el :
  setAttribute name v (setAttribute name w el) = setAttribute name v el.
Proof. unfold setAttribute. simpl. now rewrite insert_insert_eq. Qed.

(** C7: [close()] is idempotent, in both revisions of menu.js: closing
    twice leaves the page (the classes of backdrop and panel, the
    transform, the expanded flag of the trigger, and all the rest) as
    closing once. *)
Theorem close_idempotent :
  (∀ p, Menu.close (Menu.close p) = Menu.close p)
  ∧ (∀ m, BuiltMenu.close (BuiltMenu.close m) = BuiltMenu.close m).
Proof.
  split.
  - intros [btn side over items path ls]. unfold Menu.close. simpl.
    f_equal.
    + destruct btn; simpl; [|reflexivity].
      now rewrite setAttribute_setAttribute.
    + destruct side; simpl; [|reflexivity]. now rewrite classList_add_add.
    + destruct over; simpl; [|reflexivity]. now rewrite classList_add_add.
  - intros m. unfold BuiltMenu.close. simpl. now rewrite add_add.
Qed.

(** C9: without one of the anchors [#menuBtn], [#sidebar], [#overlay] the
    script of menu.js returns at once: the page is left as it was, with no
    listener registered and no attribute or class changed. *)
Theorem init_without_anchor p :
  Menu.menuBtn p = None ∨ Menu.sidebar p = None ∨ Menu.overlay p = None →
  Menu.init p = p.
Proof.
  unfold Menu.init. intros [H|[H|H]]; rewrite H.
  - reflexivity.
  - now destruct (Menu.menuBtn p).
  - now destruct (Menu.menuBtn p), (Menu.sidebar p).
Qed.

Lemma init_without_anchor_witness :
  let p := Menu.Page (Some (Element ["btn"] ∅)) None
             (Some (Element ["hidden"] ∅))
             [Link (Some "/events") ["menu-item"]] "/events/" [] in
  Menu.init p = p.
Proof.
  apply (init_without_anchor
           (Menu.Page (Some (Element ["btn"] ∅)) None
              (Some (Element ["hidden"] ∅))
              [Link (Some "/events") ["menu-item"]] "/events/" [])).
  right; left. reflexivity.
Defined.

(** The listeners the script registers on a page that has its anchors. *)
Lemma init_listeners btn side over items path ls :
  Menu.listeners (Menu.init (Menu.Page (Some btn) (Some side) (Some over)
                               items path ls))
  = (ls ++ [Menu.Listener Menu.Btn "click" Menu.ToggleOnClick;
            Menu.Listener Menu.Overlay "click" Menu.Close;
            Menu.Listener Menu.Window "keydown" Menu.CloseOnEscape])%list.
Proof. simpl. now rewrite <- !app_assoc. Qed.

(** With the listeners of the script alone, a click on the trigger closes
    an expanded panel and opens any other. *)
Lemma dispatch_click_btn q :
  Menu.listeners q
  = [Menu.Listener Menu.Btn "click" Menu.ToggleOnClick;
     Menu.Listener Menu.Overlay "click" Menu.Close;
     Menu.Listener Menu.Window "keydown" Menu.CloseOnEscape] →
  Menu.dispatch (Menu.Click Menu.Btn) q
  = if Menu.expanded q then Menu.close q else Menu.open q.
Proof. intros H. unfold Menu.dispatch. rewrite H. reflexivity. Qed.

Lemma shown_open p :
  is_Some (Menu.menuBtn p) → is_Some (Menu.sidebar p) →
  is_Some (Menu.overlay p) →
  Menu.shown (Menu.open p) = true.
Proof.
  intros [btn Hb] [side Hs] [over Ho].
  unfold Menu.shown, Menu.expanded, Menu.has_class, getAttribute, Menu.open.
  simpl. rewrite Hb, Hs, Ho. simpl.
  rewrite lookup_insert_eq. simpl. now rewrite !contains_remove.
Qed.

Lemma closed_close p :
  is_Some (Menu.menuBtn p) → is_Some (Menu.sidebar p) →
  is_Some (Menu.overlay p) →
  Menu.closed (Menu.close p) = true.
Proof.
  intros [btn Hb] [side Hs] [over Ho].
  unfold Menu.closed, Menu.expanded, Menu.has_class, getAttribute, Menu.close.
  simpl. rewrite Hb, Hs, Ho. simpl.
  rewrite lookup_insert_eq. simpl. now rewrite !contains_add.
Qed.

Lemma expanded_open p :
  is_Some (Menu.menuBtn p) → Menu.expanded (Menu.open p) = true.
Proof.
  intros [btn Hb]. unfold Menu.expanded, getAttribute, Menu.open.
  simpl. rewrite Hb. simpl. now rewrite lookup_insert_eq.
Qed.

(** C6, as the code has it.  In the menu.js that attaches to the anchors
    of the page, with the listeners of the script, a click on the trigger
    closes the panel when the trigger's [aria-expanded] is "true" and
    opens it otherwise; from a page whose trigger is not expanded, the
    first click after [init] shows the panel and the second closes it.  In
    the menu.js that builds its own panel the trigger has no expanded flag
    and a click on it always opens. *)
Theorem trigger_toggles btn side over items path :
  let p := Menu.Page (Some btn) (Some side) (Some over) items path [] in
  Menu.expanded p = false →
  (∀ q, Menu.listeners q = Menu.listeners (Menu.init p) →
        Menu.dispatch (Menu.Click Menu.Btn) q
        = if Menu.expanded q then Menu.close q else Menu.open q)
  ∧ Menu.shown (Menu.dispatch (Menu.Click Menu.Btn) (Menu.init p)) = true
  ∧ Menu.closed
      (Menu.dispatch (Menu.Click Menu.Btn)
         (Menu.dispatch (Menu.Click Menu.Btn) (Menu.init p))) = true
  ∧ ∀ m, BuiltMenu.dispatch BuiltMenu.ClickBtn m = BuiltMenu.open m
         ∧ BuiltMenu.shown (BuiltMenu.open m) = true.
Proof.
  intros p Hflag. subst p.
  set (p := Menu.Page (Some btn) (Some side) (Some over) items path []).
  pose proof (init_listeners btn side over items path []) as Hl.
  simpl app in Hl. fold p in Hl.
  assert (Hq : ∀ q, Menu.listeners q = Menu.listeners (Menu.init p) →
                    Menu.dispatch (Menu.Click Menu.Btn) q
                    = if Menu.expanded q then Menu.close q else Menu.open q).
  { intros q Hq. apply dispatch_click_btn. now rewrite Hq. }
  split; [exact Hq|].
  assert (Hinit : Menu.expanded (Menu.init p) = false) by exact Hflag.
  assert (Hb : is_Some (Menu.menuBtn (Menu.init p))) by (simpl; eauto).
  assert (Hs : is_Some (Menu.sidebar (Menu.init p))) by (simpl; eauto).
  assert (Ho : is_Some (Menu.overlay (Menu.init p))) by (simpl; eauto).
  rewrite (Hq (Menu.init p) eq_refl), Hinit.
  split; [now apply shown_open|].
  rewrite (Hq (Menu.open (Menu.init p)) eq_refl).
  rewrite (expanded_open _ Hb).
  split; [apply closed_close; unfold Menu.open; simpl; eauto|].
  intros m. split; [reflexivity|].
  unfold BuiltMenu.shown, BuiltMenu.open. simpl.
  now rewrite contains_remove.
Qed.

Lemma trigger_toggles_witness :
  let p := Menu.Page
             (Some (Element ["btn"] {["aria-expanded" := "false"]}))
             (Some (Element ["sidebar"; "-translate-x-full"] ∅))
             (Some (Element ["hidden"] ∅)) [] "/" [] in
  Menu.shown (Menu.dispatch (Menu.Click Menu.Btn) (Menu.init p)) = true
  ∧ Menu.closed
      (Menu.dispatch (Menu.Click Menu.Btn)
         (Menu.dispatch (Menu.Click Menu.Btn) (Menu.init p))) = true.
Proof.
  intros p.
  assert (Hflag : Menu.expanded p = false) by (vm_compute; reflexivity).
  destruct (trigger_toggles
              (Element ["btn"] {["aria-expanded" := "false"]})
              (Element ["sidebar"; "-translate-x-full"] ∅)
              (Element ["hidden"] ∅) [] "/" Hflag)
    as (_ & Hshown & Hclosed & _).
  split; [exact Hshown | exact Hclosed].
Defined.

(** C6 as stated fails in the menu.js that builds its own panel: the
    trigger is wired to [open], so the first click shows the panel and
    the second leaves it shown. *)
Lemma built_trigger_counterexample :
  let m := BuiltMenu.init "/" in
  BuiltMenu.shown m = false
  ∧ BuiltMenu.shown (BuiltMenu.dispatch BuiltMenu.ClickBtn m) = true
  ∧ BuiltMenu.shown
      (BuiltMenu.dispatch BuiltMenu.ClickBtn
         (BuiltMenu.dispatch BuiltMenu.ClickBtn m)) = true.
Proof. repeat split. Qed.

End Panel.

(** ** The active link *)

Section ActiveLink.
Import JSValue DOM.
Implicit Types (a b : link) (items : list link) (token path : string).

(** What is stripped is a run of slashes, and what is left does not end
    with one. *)
Lemma strip_trailing_slashes_spec s :
  (∃ t, s = strip_trailing_slashes s ++ t
        ∧ ∀ c, In c (list_ascii_of_string t) → c = "/"%char)
  ∧ ∀ u, strip_trailing_slashes s ≠ u ++ "/".
Proof.
  induction s as [|c s [(t & Hs & Ht) Hend]]; simpl.
  - split; [exists ""; split; [reflexivity | intros c []]|].
    intros [|c u]; discriminate.
  - destruct (strip_trailing_slashes s) as [|c' s'] eqn:E.
    + destruct (Ascii.eqb_spec c "/") as [->|Hc].
      * split; [|intros [|c u]; discriminate].
        exists (String "/" t). split; [simpl; now rewrite Hs|].
        intros c [<-|H]; [reflexivity | auto].
      * split.
        -- exists t. simpl. split; [now rewrite Hs | exact Ht].
        -- intros [|c1 [|c2 u]]; simpl; try discriminate.
           intros [= -> ]. now apply Hc.
    + split.
      * exists t. simpl. split; [now rewrite Hs at 1 | exact Ht].
      * intros [|c1 u]; simpl; [discriminate|].
        intros [= -> Hu]. now apply (Hend u).
Qed.

Example current_path_examples :
  current_path "/events/" = "/events" ∧ current_path "/events" = "/events"
  ∧ current_path "/health/ui//" = "/health/ui"
  ∧ current_path "/" = "/" ∧ current_path "" = "/".
Proof. repeat split. Qed.

Lemma href_test a path :
  strict_eq_string (of_attr (href a)) path = true ↔ href a = Some path.
Proof.
  destruct (href a) as [h|]; simpl.
  - rewrite String.eqb_eq. split; [now intros -> | now intros [= ->]].
  - split; discriminate.
Qed.

Lemma highlight_spec token path a :
  href (highlight token path a) = href a
  ∧ (marked token (highlight token path a) = true
     ↔ marked token a = true ∨ href a = Some path).
Proof.
  unfold highlight, marked.
  destruct (strict_eq_string (of_attr (href a)) path) eqn:E.
  - apply href_test in E. simpl. split; [reflexivity|].
    rewrite contains_add. tauto.
  - split; [reflexivity|]. split; [auto|].
    intros [H|H]; [exact H|]. apply href_test in H. congruence.
Qed.

(** The loop marks the links whose [href] is the path and leaves the
    others as they were. *)
Lemma highlight_lookup token path items i a :
  items !! i = Some a →
  ∃ a', (highlight token path <$> items) !! i = Some a'
        ∧ href a' = href a
        ∧ (marked token a' = true
           ↔ marked token a = true ∨ href a = Some path).
Proof.
  intros H. exists (highlight token path a).
  split; [now rewrite list_lookup_fmap, H | apply highlight_spec].
Qed.

(** Among links with distinct [href]s, none marked beforehand, at most one
    ends marked. *)
Lemma highlight_at_most_one token path items i j a b :
  NoDup (href <$> items) →
  (∀ c, c ∈ items → marked token c = false) →
  (highlight token path <$> items) !! i = Some a →
  (highlight token path <$> items) !! j = Some b →
  marked token a = true → marked token b = true → i = j.
Proof.
  intros Hnd Hun Hi Hj Ha Hb.
  rewrite list_lookup_fmap in Hi, Hj.
  destruct (items !! i) as [a0|] eqn:Ei; [|discriminate].
  destruct (items !! j) as [b0|] eqn:Ej; [|discriminate].
  injection Hi as <-. injection Hj as <-.
  apply highlight_spec in Ha as [Ha|Ha];
    [rewrite (Hun a0) in Ha; [discriminate|];
     now apply list_elem_of_lookup_2 in Ei|].
  apply highlight_spec in Hb as [Hb|Hb];
    [rewrite (Hun b0) in Hb; [discriminate|];
     now apply list_elem_of_lookup_2 in Ej|].
  apply (NoDup_lookup _ i j (Some path) Hnd);
    rewrite list_lookup_fmap; [rewrite Ei | rewrite Ej]; simpl; congruence.
Qed.

(** The loop, link by link: a link whose [href] is the path gets the token
    added to its classes, any other link is left as it is. *)
Lemma highlight_lookup_exact token path items i a :
  items !! i = Some a →
  ∃ a', (highlight token path <$> items) !! i = Some a'
        ∧ href a' = href a
        ∧ (href a = Some path →
           link_classList a' = ClassList.add (link_classList a) token)
        ∧ (href a ≠ Some path → a' = a)
        ∧ (∀ t, t ≠ token → (t ∈ link_classList a' ↔ t ∈ link_classList a))
        ∧ (marked token a' = true
           ↔ marked token a = true ∨ href a = Some path).
Proof.
  intros H. exists (highlight token path a).
  split; [now rewrite list_lookup_fmap, H|].
  destruct (highlight_spec token path a) as [Hh Hm].
  split; [exact Hh|]. unfold highlight.
  destruct (strict_eq_string (of_attr (href a)) path) eqn:E.
  - apply href_test in E. simpl.
    split; [reflexivity|]. split; [congruence|]. split.
    + intros t Ht. rewrite elem_of_add. tauto.
    + unfold highlight in Hm. apply href_test in E. rewrite E in Hm.
      exact Hm.
  - assert (Hne : href a ≠ Some path).
    { intros Hp. apply href_test in Hp. congruence. }
    split; [congruence|]. split; [reflexivity|]. split; [reflexivity|].
    unfold highlight in Hm. rewrite E in Hm. exact Hm.
Qed.

(** C8, as the code has it: the current path is the pathname without the
    slashes that end it, or "/" when nothing is left; [init] adds the
    active class to the classes of every link whose [href] is that path
    and leaves everything else as it was: the other classes of that link,
    every other link, the number and the order of the links, and the
    three anchors.  Among links that are not marked beforehand a link ends
    marked exactly when its [href] is the path, none without a match; at
    most one ends marked when the [href]s are distinct and no link is
    marked beforehand.  All this holds of the six links of the panel that
    menu.js builds itself, for every pathname, when the page has its
    body (without one the script throws before it marks a link); at
    "/events/" exactly its "/events" link is marked. *)
Theorem active_link_highlight btn side over items pathname :
  let p := Menu.Page (Some btn) (Some side) (Some over) items pathname [] in
  let path := current_path pathname in
  (∀ i a, items !! i = Some a →
     ∃ a', Menu.menu_items (Menu.init p) !! i = Some a'
           ∧ href a' = href a
           ∧ (marked "active" a' = true
              ↔ marked "active" a = true ∨ href a = Some path))
  ∧ (NoDup (href <$> items) →
     (∀ c, c ∈ items → marked "active" c = false) →
     ∀ i j a b,
       Menu.menu_items (Menu.init p) !! i = Some a →
       Menu.menu_items (Menu.init p) !! j = Some b →
       marked "active" a = true → marked "active" b = true → i = j)
  ∧ (∀ i a, BuiltMenu.links (BuiltMenu.init pathname) !! i = Some a →
       (marked "bg-slate-800" a = true ↔ href a = Some path))
  ∧ (∀ i j a b,
       BuiltMenu.links (BuiltMenu.init pathname) !! i = Some a →
       BuiltMenu.links (BuiltMenu.init pathname) !! j = Some b →
       marked "bg-slate-800" a = true → marked "bg-slate-800" b = true →
       i = j)
  ∧ marked "bg-slate-800" <$> BuiltMenu.links (BuiltMenu.init "/events/")
    = [false; true; false; false; false; false]
  ∧ length (Menu.menu_items (Menu.init p)) = length items
  ∧ (∀ i a, items !! i = Some a →
       ∃ a', Menu.menu_items (Menu.init p) !! i = Some a'
             ∧ (href a = Some path →
                a' = Link (href a)
                       (ClassList.add (link_classList a) "active"))
             ∧ (href a ≠ Some path → a' = a)
             ∧ (∀ t, t ≠ "active" →
                  (t ∈ link_classList a' ↔ t ∈ link_classList a)))
  ∧ Menu.menuBtn (Menu.init p) = Some btn
  ∧ Menu.sidebar (Menu.init p) = Some side
  ∧ Menu.overlay (Menu.init p) = Some over
  ∧ length (BuiltMenu.links (BuiltMenu.init pathname))
    = length (BuiltMenu.links BuiltMenu.created)
  ∧ (∀ i a, BuiltMenu.links BuiltMenu.created !! i = Some a →
       ∃ a', BuiltMenu.links (BuiltMenu.init pathname) !! i = Some a'
             ∧ (href a = Some path →
                a' = Link (href a)
                       (ClassList.add (link_classList a) "bg-slate-800"))
             ∧ (href a ≠ Some path → a' = a)
             ∧ (∀ t, t ≠ "bg-slate-800" →
                  (t ∈ link_classList a' ↔ t ∈ link_classList a)))
  ∧ BuiltMenu.script true pathname
    = Shortcuts.Returns (BuiltMenu.init pathname)
  ∧ BuiltMenu.script false pathname = Shortcuts.Throws Shortcuts.TypeError.
Proof.
  intros p path.
  assert (Hun : ∀ c, c ∈ BuiltMenu.links BuiltMenu.created →
                     marked "bg-slate-800" c = false).
  { intros c Hc. simpl in Hc.
    repeat (apply elem_of_cons in Hc as [->|Hc]; [reflexivity|]).
    now apply elem_of_nil in Hc. }
  assert (Hnd : NoDup (href <$> BuiltMenu.links BuiltMenu.created)).
  { apply (bool_decide_unpack _). vm_compute. exact I. }
  assert (Hexact : ∀ token (its : list link) i a, its !! i = Some a →
            ∃ a', (highlight token path <$> its) !! i = Some a'
              ∧ (href a = Some path →
                 a' = Link (href a) (ClassList.add (link_classList a) token))
              ∧ (href a ≠ Some path → a' = a)
              ∧ (∀ t, t ≠ token →
                   (t ∈ link_classList a' ↔ t ∈ link_classList a))).
  { intros token its i a Hi.
    destruct (highlight_lookup_exact token path its i a Hi)
      as (a' & Hl & Hh & Hadd & Hsame & Hother & _).
    exists a'. split; [exact Hl|]. split; [|split; assumption].
    intros Hp. specialize (Hadd Hp). destruct a' as [h cl].
    simpl in Hh, Hadd. now subst. }
  split; [|split; [|split; [|split; [|split]]]].
  - intros i a Hi. apply (highlight_lookup "active" path items i a Hi).
  - intros Hnd' Hun' i j a b. apply highlight_at_most_one; assumption.
  - intros i a Hi.
    change (BuiltMenu.links (BuiltMenu.init pathname))
      with (highlight "bg-slate-800" path <$> BuiltMenu.links BuiltMenu.created)
      in Hi.
    rewrite list_lookup_fmap in Hi.
    destruct (_ !! i) as [a0|] eqn:Ei; [|discriminate].
    injection Hi as <-.
    destruct (highlight_spec "bg-slate-800" path a0) as [Hh ->].
    rewrite Hh, (Hun a0) by now apply list_elem_of_lookup_2 in Ei.
    split; [intros [?|?]; [discriminate | assumption] | auto].
  - intros i j a b. apply highlight_at_most_one; assumption.
  - reflexivity.
  - split; [apply length_fmap|].
    split; [intros i a Hi; apply (Hexact "active" items i a Hi)|].
    repeat (split; [reflexivity|]).
    split; [intros i a Hi;
            apply (Hexact "bg-slate-800" _ i a Hi)|].
    split; reflexivity.
Qed.

(** C8 as stated fails in the menu.js attached to the page when two of its
    links share their [href]: at "/events/" both end marked. *)
Lemma duplicate_links_counterexample :
  let p := Menu.Page (Some (Element [] ∅)) (Some (Element [] ∅))
             (Some (Element [] ∅))
             [Link (Some "/events") ["menu-item"];
              Link (Some "/events") ["menu-item"];
              Link (Some "/") ["menu-item"]]
             "/events/" [] in
  marked "active" <$> Menu.menu_items (Menu.init p) = [true; true; false].
Proof. reflexivity. Qed.

End ActiveLink.

(** * Further properties of the scripts *)

(** ** The snapshot, whatever the payload *)

Section SnapshotMore.
Import JSNumber JSValue Shortcuts.
Implicit Types (arr : list bool) (items : list item) (r o : value).

Lemma snapshot_of_ok_body j :
  ∃ arr, snapshot_of (FetchResolved {| ok := true; json := Some j |})
         = Some arr
         ∧ length arr = 32%nat.
Proof.
  destruct j as [|[| items |]];
    try (exists (replicate 32 false); split; reflexivity).
  change (∃ arr, snapshot_of (fetched_relays items) = Some arr
                 ∧ length arr = 32%nat).
  rewrite snapshot_of_relays.
  destruct (forEach_length items (replicate 32 false))
    as (arr & out & -> & L).
  exists arr. split; [reflexivity | exact L].
Qed.

(** X1: the snapshot is [null] exactly when the fetch failed; after any
    other fetch, whatever its body, it is an array of exactly 32 slots. *)
Theorem snapshot_null_or_32_slots f :
  (fetch_failed f = true ∧ snapshot_of f = None)
  ∨ (fetch_failed f = false
     ∧ ∃ arr, snapshot_of f = Some arr ∧ length arr = 32%nat).
Proof.
  destruct f as [|[[] [j|]]]; try (left; split; reflexivity).
  right. split; [reflexivity | apply snapshot_of_ok_body].
Qed.

(** X2: a slot to whose relay number no entry of the payload is coerced
    stays false. *)
Theorem untouched_slot_is_false items k :
  1 ≤ k ≤ 32 →
  (∀ r o, It r o ∈ items → bitor0 r ≠ k) →
  ∃ arr, snapshot_of (fetched_relays items) = Some arr
         ∧ arr !! Z.to_nat (k - 1) = Some false.
Proof.
  intros Hk Hne. rewrite snapshot_of_relays.
  destruct (forEach_length items (replicate 32 false))
    as (arr & out & E & _).
  rewrite E. exists arr. split; [reflexivity|].
  rewrite (forEach_other_slot k items _ _ _ (proj1 Hk) Hne E).
  apply lookup_replicate_2. lia.
Qed.

Lemma untouched_slot_is_false_witness :
  ∃ arr,
    snapshot_of (fetched_relays [It (VNumber (of_Z 3)) (VBool true); ItNull])
    = Some arr
    ∧ arr !! Z.to_nat (2 - 1) = Some false.
Proof.
  apply (untouched_slot_is_false
           [It (VNumber (of_Z 3)) (VBool true); ItNull] 2); [lia|].
  intros r o H. apply elem_of_cons in H as [[= -> _]|H].
  - vm_compute. discriminate.
  - apply list_elem_of_singleton in H. discriminate H.
Defined.

(** X3: a [null] element of [relays] ends the loop: the entries before it
    are applied, the entries after it are not, and [reconcile] paints the
    controls as with the payload cut before the [null].  So does an
    element whose [relay] is an object that does not convert to a
    number. *)
Theorem null_entry_cuts_payload before after doc :
  snapshot_of (fetched_relays (before ++ ItNull :: after))
  = snapshot_of (fetched_relays before)
  ∧ reconcile (fetched_relays (before ++ ItNull :: after)) doc
    = reconcile (fetched_relays before) doc
  ∧ snapshot_of (fetched_relays (before ++ ItUnconvertible :: after))
    = snapshot_of (fetched_relays before)
  ∧ reconcile (fetched_relays (before ++ ItUnconvertible :: after)) doc
    = reconcile (fetched_relays before) doc.
Proof.
  assert (E : snapshot_of (fetched_relays (before ++ ItNull :: after))
              = snapshot_of (fetched_relays before)).
  { rewrite !snapshot_of_relays, forEach_app.
    destruct (forEach before (Some (replicate 32 false))) as [st [[]|e]];
      reflexivity. }
  assert (E' : snapshot_of
                 (fetched_relays (before ++ ItUnconvertible :: after))
               = snapshot_of (fetched_relays before)).
  { rewrite !snapshot_of_relays, forEach_app.
    destruct (forEach before (Some (replicate 32 false))) as [st [[]|e]];
      reflexivity. }
  split; [exact E|]. split; [now rewrite !reconcile_paint, E|].
  split; [exact E'|]. now rewrite !reconcile_paint, E'.
Qed.

(** Two entries in a row coerced to different relay numbers commute. *)
Lemma forEach_swap r1 o1 r2 o2 rest arr :
  bitor0 r1 ≠ bitor0 r2 →
  forEach (It r1 o1 :: It r2 o2 :: rest) (Some arr)
  = forEach (It r2 o2 :: It r1 o1 :: rest) (Some arr).
Proof.
  intros Hne. rewrite !forEach_cons_entry. f_equal. f_equal.
  destruct ((0 <=? bitor0 r1 - 1) && (bitor0 r1 - 1 <? Z.of_nat (length arr)))
    eqn:E1;
  destruct ((0 <=? bitor0 r2 - 1) && (bitor0 r2 - 1 <? Z.of_nat (length arr)))
    eqn:E2;
    rewrite ?length_insert, ?E1, ?E2; try reflexivity.
  apply andb_true_iff in E1 as [E1 _]. apply andb_true_iff in E2 as [E2 _].
  apply Z.leb_le in E1, E2.
  apply list_insert_insert_ne. lia.
Qed.

(** X4: the order of two adjacent entries coerced to different relay
    numbers does not matter to the snapshot. *)
Theorem adjacent_entries_commute before r1 o1 r2 o2 after :
  bitor0 r1 ≠ bitor0 r2 →
  snapshot_of (fetched_relays (before ++ It r1 o1 :: It r2 o2 :: after))
  = snapshot_of (fetched_relays (before ++ It r2 o2 :: It r1 o1 :: after)).
Proof.
  intros Hne. rewrite !snapshot_of_relays, !forEach_app.
  destruct (forEach before (Some (replicate 32 false))) as [[arr|] [[]|e]];
    try reflexivity.
  now rewrite forEach_swap.
Qed.

Lemma adjacent_entries_commute_witness :
  snapshot_of
    (fetched_relays ([] ++ It (VNumber (of_Z 1)) (VBool true)
                     :: It (VString "2") (VBool true) :: []))
  = snapshot_of
      (fetched_relays ([] ++ It (VString "2") (VBool true)
                       :: It (VNumber (of_Z 1)) (VBool true) :: [])).
Proof.
  apply (adjacent_entries_commute [] (VNumber (of_Z 1)) (VBool true)
           (VString "2") (VBool true) []).
  vm_compute. discriminate.
Defined.

End SnapshotMore.

(** ** Painting, whatever the controls *)

Section PaintMore.
Import JSString JSNumber JSValue Shortcuts.
Implicit Types (arr : list bool) (btn : control) (doc : list control).

Lemma remove_remove l t :
  ClassList.remove (ClassList.remove l t) t = ClassList.remove l t.
Proof.
  unfold ClassList.remove. induction l as [|u l IH]; [reflexivity|].
  rewrite filter_cons. destruct (decide (u ≠ t)) as [Hu|Hu].
  - rewrite filter_cons. destruct (decide (u ≠ t)); [|contradiction].
    now rewrite IH.
  - exact IH.
Qed.

Lemma toggle_toggle l t force :
  ClassList.toggle (ClassList.toggle l t force) t force
  = ClassList.toggle l t force.
Proof. destruct force; simpl; [apply add_add | apply remove_remove]. Qed.

Lemma elem_of_toggle_other l t u force :
  u ≠ t → u ∈ ClassList.toggle l t force ↔ u ∈ l.
Proof.
  intros Hu. destruct force; simpl.
  - rewrite elem_of_add. tauto.
  - rewrite elem_of_remove. tauto.
Qed.

(** [paint] toggles "is-on" by a flag that the class list does not
    decide. *)
Lemma paint_toggle states btn :
  ∃ force, ∀ classes,
    paint states (Control (source btn) (ipxIndex btn) (display btn) classes)
    = Control (source btn) (ipxIndex btn) (display btn)
        (ClassList.toggle classes "is-on" force).
Proof.
  unfold paint, applyFromText, toggle_is_on. simpl.
  destruct (strict_eq_string _ _ && isFinite _); eexists; reflexivity.
Qed.

Lemma paint_paint states btn :
  paint states (paint states btn) = paint states btn.
Proof.
  destruct btn as [src idx disp classes].
  destruct (paint_toggle states (Control src idx disp classes))
    as [force H]. simpl in H.
  now rewrite (H classes), (H (ClassList.toggle classes "is-on" force)),
    toggle_toggle.
Qed.

(** X5: [reconcile] keeps the controls in number and order, changes no
    attribute and no text, and in the class lists adds or removes nothing
    but the token "is-on". *)
Theorem reconcile_only_toggles_is_on f doc :
  ∃ doc',
    reconcile f doc = Returns doc' ∧ length doc' = length doc
    ∧ ∀ i btn, doc !! i = Some btn →
        ∃ btn', doc' !! i = Some btn'
          ∧ source btn' = source btn ∧ ipxIndex btn' = ipxIndex btn
          ∧ display btn' = display btn
          ∧ ∀ t, t ≠ "is-on" → (t ∈ classList btn' ↔ t ∈ classList btn).
Proof.
  exists (paint (snapshot_of f) <$> doc).
  split; [apply reconcile_paint|]. split; [apply length_fmap|].
  intros i btn Hi. exists (paint (snapshot_of f) btn).
  split; [now rewrite list_lookup_fmap, Hi|].
  destruct btn as [src idx disp classes].
  destruct (paint_toggle (snapshot_of f) (Control src idx disp classes))
    as [force H]. simpl in H. rewrite (H classes). simpl.
  repeat (split; [reflexivity|]).
  intros t Ht. now apply elem_of_toggle_other.
Qed.

(** X6: painting is stable: a second [reconcile] whose fetch resolves as
    the first leaves the controls as the first left them. *)
Theorem reconcile_twice f doc :
  ∃ doc', reconcile f doc = Returns doc' ∧ reconcile f doc' = Returns doc'.
Proof.
  exists (paint (snapshot_of f) <$> doc).
  split; [apply reconcile_paint|]. rewrite reconcile_paint. f_equal.
  rewrite <- list_fmap_compose. apply list_fmap_ext.
  intros i btn _. apply paint_paint.
Qed.

(** X7: the on-state a control gets does not depend on the classes it had:
    two controls with the same source, index and text are painted alike
    by the same snapshot. *)
Theorem on_state_forgets_classes states btn classes :
  is_on (paint states btn)
  = is_on (paint states
             (Control (source btn) (ipxIndex btn) (display btn) classes)).
Proof. now rewrite !is_on_paint. Qed.

(** X8: a control whose [data-source] is missing or is not exactly "ipx",
    or that has no [data-ipx-index], is painted from its text; without a
    [.js-display] element in it, it is painted off. *)
Theorem fallback_to_text states btn :
  source btn ≠ Some "ipx" ∨ ipxIndex btn = None →
  is_on (paint states btn) = toBool (VString (default "" (display btn)))
  ∧ (display btn = None → is_on (paint states btn) = false).
Proof.
  intros H.
  assert (E : is_on (paint states btn)
              = toBool (VString (default "" (display btn)))).
  { rewrite is_on_paint. cbv zeta. destruct H as [H|H].
    - destruct (strict_eq_string (of_attr (source btn)) "ipx") eqn:Es;
        [|reflexivity].
      exfalso. apply H. destruct (source btn) as [s|]; [|discriminate].
      simpl in Es. apply String.eqb_eq in Es. now subst.
    - rewrite H. simpl. now rewrite andb_false_r. }
  split; [exact E|]. intros Hd. now rewrite E, Hd.
Qed.

Lemma fallback_to_text_witness :
  is_on (paint (Some (replicate 32 true))
           (Control (Some "IPX") (Some "0") (Some " On ") ["icon-btn"]))
  = toBool (VString " On ").
Proof.
  apply (fallback_to_text (Some (replicate 32 true))
           (Control (Some "IPX") (Some "0") (Some " On ") ["icon-btn"])).
  left. discriminate.
Defined.

Lemma array_get_all_false n idx0 :
  ToBoolean (array_get (replicate n false) idx0) = false.
Proof.
  rewrite ToBoolean_array_get.
  destruct (integer_value idx0) as [k|]; [|reflexivity].
  destruct (0 <=? k); [|reflexivity]. simpl.
  destruct (replicate n false !! Z.to_nat k) as [b|] eqn:E; [|reflexivity].
  apply lookup_replicate in E as [-> _]. reflexivity.
Qed.

Lemma paint_all_false n btn :
  paint (Some (replicate n false)) btn = paint None btn.
Proof.
  unfold paint. cbv zeta.
  destruct (strict_eq_string _ _ && isFinite _); [|reflexivity].
  now rewrite array_get_all_false.
Qed.

(** X9: an ok response whose body holds no relay array ([null], no
    [relays] or a falsy one, [relays] that is not an array, an empty
    array) makes an all-false snapshot, and the controls are painted as
    after a failed fetch. *)
Theorem body_without_relays j doc :
  j = BodyNull ∨ j = Body RelaysFalsy ∨ j = Body RelaysOther
  ∨ j = Body (RelaysArray []) →
  snapshot_of (FetchResolved {| ok := true; json := Some j |})
  = Some (replicate 32 false)
  ∧ reconcile (FetchResolved {| ok := true; json := Some j |}) doc
    = reconcile FetchRejected doc.
Proof.
  intros H.
  assert (E : snapshot_of (FetchResolved {| ok := true; json := Some j |})
              = Some (replicate 32 false))
    by (destruct H as [->|[->|[->| ->]]]; reflexivity).
  split; [exact E|]. rewrite !reconcile_paint, E.
  f_equal. apply list_fmap_ext. intros i btn _. apply paint_all_false.
Qed.

Lemma body_without_relays_witness :
  reconcile (FetchResolved {| ok := true; json := Some BodyNull |})
    [Control (Some "ipx") (Some "0") (Some "on") ["is-on"]]
  = reconcile FetchRejected
      [Control (Some "ipx") (Some "0") (Some "on") ["is-on"]].
Proof.
  apply (body_without_relays BodyNull
           [Control (Some "ipx") (Some "0") (Some "on") ["is-on"]]).
  left. reflexivity.
Defined.

End PaintMore.

(** ** The coercion helper: padding and case *)

Section ToBoolMore.
Import JSString JSValue Shortcuts.

Lemma trimStart_app_space ws s :
  all_space ws = true → trimStart (ws ++ s)%string = trimStart s.
Proof.
  induction ws as [|c ws IH]; simpl; [reflexivity|].
  intros [Hc Hws]%andb_true_iff. rewrite Hc. auto.
Qed.

Lemma trimEnd_all_space ws : all_space ws = true → trimEnd ws = "".
Proof.
  induction ws as [|c ws IH]; simpl; [reflexivity|].
  intros [Hc Hws]%andb_true_iff. now rewrite IH, Hc.
Qed.

Lemma trimEnd_app_space s ws :
  all_space ws = true → trimEnd (s ++ ws)%string = trimEnd s.
Proof.
  intros Hws. induction s as [|c s IH]; simpl.
  - now apply trimEnd_all_space.
  - now rewrite IH.
Qed.

Lemma trim_app_space s ws :
  all_space ws = true → trim (s ++ ws)%string = trim s.
Proof.
  intros Hws. unfold trim. induction s as [|c s IH]; simpl.
  - now rewrite trimStart_all_space.
  - destruct (is_space c); [exact IH|].
    apply (trimEnd_app_space (String c s) ws Hws).
Qed.

Lemma is_space_lower_char c : is_space (lower_char c) = is_space c.
Proof. destruct c as [[] [] [] [] [] [] [] []]; reflexivity. Qed.

Lemma trimStart_toLowerCase s :
  trimStart (toLowerCase s) = toLowerCase (trimStart s).
Proof.
  induction s as [|c s IH]; simpl; [reflexivity|].
  rewrite is_space_lower_char. now destruct (is_space c).
Qed.

Lemma trimEnd_toLowerCase s :
  trimEnd (toLowerCase s) = toLowerCase (trimEnd s).
Proof.
  induction s as [|c s IH]; simpl; [reflexivity|].
  rewrite IH, is_space_lower_char.
  destruct (trimEnd s); simpl; [now destruct (is_space c) | reflexivity].
Qed.

Lemma trim_toLowerCase s : trim (toLowerCase s) = toLowerCase (trim s).
Proof.
  unfold trim. now rewrite trimStart_toLowerCase, trimEnd_toLowerCase.
Qed.

(** X10: [toBool] on strings ignores the white space around the text and
    the case of its letters: a string padded with white space is coerced
    as any string with the same lower case. *)
Theorem toBool_ignores_padding_and_case ws1 s ws2 s' :
  all_space ws1 = true → all_space ws2 = true →
  toLowerCase s = toLowerCase s' →
  toBool (VString (ws1 ++ s ++ ws2)%string) = toBool (VString s').
Proof.
  intros H1 H2 Hs. unfold toBool.
  replace (toLowerCase (trim (ws1 ++ s ++ ws2)%string))
    with (toLowerCase (trim s')); [reflexivity|].
  unfold trim at 2. rewrite (trimStart_app_space ws1 _ H1).
  fold (trim (s ++ ws2)%string). rewrite (trim_app_space s ws2 H2).
  now rewrite <- !trim_toLowerCase, Hs.
Qed.

Lemma toBool_ignores_padding_and_case_witness :
  toBool (VString (" " ++ "YeS" ++ "  ")%string) = toBool (VString "yes").
Proof.
  apply (toBool_ignores_padding_and_case " " "YeS" "  " "yes");
    reflexivity.
Defined.

End ToBoolMore.

(** ** The wrapper of the render function *)

Section HooksMore.
Import Shortcuts Hooks.
Context {R : Type}.
Implicit Types (origLoadIcons : render R) (doc : list control).

Lemma wrapped_eq origLoadIcons f doc :
  wrapped origLoadIcons f doc
  = match origLoadIcons doc with
    | (doc1, Returns res) => (paint (snapshot_of f) <$> doc1, Returns res)
    | (doc1, Throws e) => (doc1, Throws e)
    end.
Proof.
  unfold wrapped. destruct (origLoadIcons doc) as [doc1 [res|e]];
    [|reflexivity].
  pose proof (reconcile_paint f doc1) as H. unfold reconcile in H.
  destruct (run f doc1 None) as [st out]. simpl in H. now rewrite H.
Qed.

(** X11: the wrapped render function ends as the page's own does, with
    its result or its exception.  When the page's function returns, the
    controls it leaves are then painted as [reconcile] paints them, so
    that no class it gave them decides their on-state; when it throws,
    they stay as it left them.  Wrapping the wrapper again (the script
    loaded twice, both fetches resolving alike) changes nothing. *)
Theorem wrapped_render origLoadIcons f doc :
  (∀ doc1 res, origLoadIcons doc = (doc1, Returns res) →
     wrapped origLoadIcons f doc = (paint (snapshot_of f) <$> doc1, Returns res)
     ∧ reconcile f doc1 = Returns (wrapped origLoadIcons f doc).1)
  ∧ (∀ doc1 e, origLoadIcons doc = (doc1, Throws e) →
       wrapped origLoadIcons f doc = (doc1, Throws e))
  ∧ wrapped (wrapped origLoadIcons f) f doc = wrapped origLoadIcons f doc.
Proof.
  split; [|split].
  - intros doc1 res H. rewrite wrapped_eq, H.
    split; [reflexivity | apply reconcile_paint].
  - intros doc1 e H. now rewrite wrapped_eq, H.
  - rewrite (wrapped_eq (wrapped origLoadIcons f)), wrapped_eq.
    destruct (origLoadIcons doc) as [doc1 [res|e]]; [|reflexivity].
    f_equal. rewrite <- list_fmap_compose. apply list_fmap_ext.
    intros i btn _. apply paint_paint.
Qed.

End HooksMore.

(** ** The dashboard script *)

Section AppMore.
Import JSValue Shortcuts App.
Variable Number_toString : spec_float → string.



Lemma next_text_cases d :
  (summary d ≠ Unconvertible ∧ start d ≠ Unconvertible
   ∧ ∃ text, next_text Number_toString d = Returns text)
  ∨ ((summary d = Unconvertible ∨ start d = Unconvertible)
     ∧ next_text Number_toString d = Throws TypeError).
Proof.
  unfold next_text, or_else.
  destruct (summary d) as [vs|]; [|right; split; [left|]; reflexivity].
  destruct (start d) as [vt|]; [|right; split; [right|]; reflexivity].
  left. split; [discriminate|]. split; [discriminate|].
  simpl. destruct (ToBoolean vt); simpl; eauto.
Qed.

(** X13: [refreshNextEvent] returns exactly when the body is JSON other
    than [null], the page has [#next-event], and [summary] is falsy or
    neither [summary] nor [start] is an object that does not convert to a
    string; when it throws (the fetch rejects, the body is not JSON or is
    [null], the element is missing, the template literal throws) the text
    of the element is left as it was.  The status of the response is
    never looked at: a response that is not ok is rendered as an ok one
    with the same body. *)
Theorem refresh_failures r el :
  ((refreshNextEvent Number_toString r el).2 = Returns tt
   ↔ ∃ ok d, r = Responds ok (Some (Parsed d)) ∧ is_Some el
       ∧ (truthy (summary d) = false
          ∨ (summary d ≠ Unconvertible ∧ start d ≠ Unconvertible)))
  ∧ (∀ e, (refreshNextEvent Number_toString r el).2 = Throws e →
       (refreshNextEvent Number_toString r el).1 = el)
  ∧ (∀ ok body, r = Responds ok body →
       refreshNextEvent Number_toString r el
       = refreshNextEvent Number_toString (Responds (negb ok) body) el).
Proof.
  split; [|split].
  - destruct r as [|ok [[|d]|]];
      try (simpl; split; [discriminate | intros (? & ? & [=] & _)]).
    unfold refreshNextEvent, fetchJSON.
    destruct (truthy (summary d)) eqn:Ev.
    + destruct (next_text_cases d) as [(Hs & Ht & text & ->)|[Hu ->]].
      * destruct el as [old|]; simpl.
        -- split; [|reflexivity]. intros _. exists ok, d. eauto.
        -- split; [discriminate | intros (? & ? & _ & [? [=]] & _)].
      * split; [discriminate|].
        intros (ok' & d' & [= <- <-] & _ & [H|[Hs Ht]]);
          [congruence | tauto].
    + destruct el as [old|]; simpl.
      * split; [|reflexivity]. intros _. exists ok, d. eauto.
      * split; [discriminate | intros (? & ? & _ & [? [=]] & _)].
  - intros e. destruct r as [|ok [[|d]|]]; try reflexivity.
    unfold refreshNextEvent, fetchJSON.
    destruct (truthy (summary d)).
    + destruct (next_text Number_toString d); [|reflexivity].
      destruct el; simpl; [discriminate | reflexivity].
    + destruct el; simpl; [discriminate | reflexivity].
  - intros ok body ->. reflexivity.
Qed.


End AppMore.


Section Wiring.
Import Shortcuts App.

Lemma assign_onclick_spec present ids :
  ∀ done out, assign_onclick present ids = (done, out) →
    done `prefix_of` ids
    ∧ (∀ id, id ∈ done → present id = true)
    ∧ match out with
      | Returns _ => done = ids
      | Throws e =>
          e = TypeError
          ∧ ∃ id, ids !! length done = Some id ∧ present id = false
      end.
Proof.
  induction ids as [|id ids IH]; simpl; intros done out E.
  - injection E as <- <-. split; [reflexivity|].
    split; [intros id H; now apply elem_of_nil in H | reflexivity].
  - destruct (present id) eqn:Hp.
    + destruct (assign_onclick present ids) as [done' out'].
      injection E as <- <-.
      destruct (IH done' out' eq_refl) as (Hpre & Hall & Hout).
      split; [now apply prefix_cons|]. split.
      * intros id' [->|H]%elem_of_cons; auto.
      * destruct out' as [[]|e]; [now rewrite Hout | exact Hout].
    + injection E as <- <-. split; [apply prefix_nil|].
      split; [intros id' H; now apply elem_of_nil in H|].
      split; [reflexivity | exists id; split; [reflexivity | exact Hp]].
Qed.

(** X15: the script gives the five buttons their [onclick] in order and
    stops at the first one the page lacks: the buttons before it keep
    their handlers, the later ones get none, and [refreshNextEvent] is
    called only when all five are there. *)
Theorem script_wiring present :
  ∃ done reached,
    script present = (done, reached)
    ∧ done `prefix_of` buttons
    ∧ (∀ id, id ∈ done → present id = true)
    ∧ (reached = true ↔ ∀ id, id ∈ buttons → present id = true)
    ∧ (reached = true → done = buttons)
    ∧ (reached = false →
       ∃ id, buttons !! length done = Some id ∧ present id = false).
Proof.
  unfold script.
  destruct (assign_onclick present buttons) as [done out] eqn:E.
  destruct (assign_onclick_spec present buttons done out E)
    as (Hpre & Hall & Hout).
  destruct out as [[]|e].
  - exists done, true. subst done.
    split; [reflexivity|]. split; [exact Hpre|]. split; [exact Hall|].
    split; [split; [intros _; exact Hall | reflexivity]|].
    split; [reflexivity | discriminate].
  - destruct Hout as (_ & id & Hid & Hp).
    exists done, false.
    split; [reflexivity|]. split; [exact Hpre|]. split; [exact Hall|].
    split; [split; [discriminate|]|].
    + intros H. rewrite (H id) in Hp; [discriminate|].
      now apply list_elem_of_lookup_2 in Hid.
    + split; [discriminate | eauto].
Qed.

End Wiring.

(** ** The panel under any sequence of events *)

Section PanelMore.
Import JSValue DOM PanelEvents.
Implicit Types (p q : Menu.page) (e : Menu.event) (es : list Menu.event).

Lemma contains_add_other l t u :
  u ≠ t → ClassList.contains (ClassList.add l t) u = ClassList.contains l u.
Proof.
  intros Hu. unfold ClassList.contains. apply bool_decide_ext.
  rewrite elem_of_add. tauto.
Qed.

Lemma contains_remove_other l t u :
  u ≠ t →
  ClassList.contains (ClassList.remove l t) u = ClassList.contains l u.
Proof.
  intros Hu. unfold ClassList.contains. apply bool_decide_ext.
  rewrite elem_of_remove. tauto.
Qed.

Lemma same_but_state_refl p : same_but_state p p.
Proof. repeat split. Qed.

Lemma same_but_state_trans p q r :
  same_but_state p q → same_but_state q r → same_but_state p r.
Proof.
  intros (H1 & H2 & H3 & H4 & H5 & H6 & H7 & H8 & H9)
         (K1 & K2 & K3 & K4 & K5 & K6 & K7 & K8 & K9).
  repeat split; try congruence.
  - intros name Hn. now rewrite K5, H5.
  - intros t Ht. now rewrite K7, H7.
  - intros t Ht. now rewrite K9, H9.
Qed.

Lemma same_but_state_open p : same_but_state p (Menu.open p).
Proof.
  destruct p as [[btn|] [side|] [over|] items path ls];
    repeat split; simpl; intros x Hx;
    try reflexivity;
    try (unfold getAttribute; simpl; now apply lookup_insert_ne);
    now apply contains_remove_other.
Qed.

Lemma same_but_state_close p : same_but_state p (Menu.close p).
Proof.
  destruct p as [[btn|] [side|] [over|] items path ls];
    repeat split; simpl; intros x Hx;
    try reflexivity;
    try (unfold getAttribute; simpl; now apply lookup_insert_ne);
    now apply contains_add_other.
Qed.

Lemma same_but_state_invoke cb e p : same_but_state p (Menu.invoke cb e p).
Proof.
  destruct cb; simpl.
  - destruct (Menu.expanded p);
      [apply same_but_state_close | apply same_but_state_open].
  - apply same_but_state_close.
  - destruct e as [t|key]; [apply same_but_state_refl|].
    destruct (String.eqb key "Escape");
      [apply same_but_state_close | apply same_but_state_refl].
Qed.

Lemma same_but_state_dispatch e p : same_but_state p (Menu.dispatch e p).
Proof.
  unfold Menu.dispatch.
  assert (H : ∀ ls q, same_but_state p q →
                same_but_state p
                  (foldl (λ q l,
                            if Menu.target_eqb (Menu.listens_on l)
                                 (Menu.event_target e)
                               && String.eqb (Menu.listens_to l)
                                    (Menu.event_type e)
                            then Menu.invoke (Menu.calls l) e q else q)
                         q ls)).
  { induction ls as [|l ls IH]; intros q Hq; [exact Hq|].
    simpl. apply IH. destruct (_ && _); [|exact Hq].
    eapply same_but_state_trans; [exact Hq | apply same_but_state_invoke]. }
  apply H, same_but_state_refl.
Qed.

Lemma same_but_state_after es : ∀ p, same_but_state p (after es p).
Proof.
  induction es as [|e es IH]; intros p; [apply same_but_state_refl|].
  simpl. eapply same_but_state_trans;
    [apply same_but_state_dispatch | apply IH].
Qed.

(** X16: no event changes anything but the open or closed state of the
    panel: after any sequence of clicks and keys the links and their marks,
    the listeners, the classes of the trigger, its attributes other than
    [aria-expanded], the attributes of sidebar and overlay and their
    classes other than [-translate-x-full] and [hidden] are as before. *)
Theorem events_keep_the_rest es p : same_but_state p (after es p).
Proof. apply same_but_state_after. Qed.

Lemma same_but_state_anchors p q :
  same_but_state p q →
  (is_Some (Menu.menuBtn p) → is_Some (Menu.menuBtn q))
  ∧ (is_Some (Menu.sidebar p) → is_Some (Menu.sidebar q))
  ∧ (is_Some (Menu.overlay p) → is_Some (Menu.overlay q)).
Proof.
  intros (_ & _ & _ & Hb & _ & Hs & _ & Ho & _).
  repeat split; intros [x Hx].
  - rewrite Hx in Hb. destruct (Menu.menuBtn q); [eauto | discriminate].
  - rewrite Hx in Hs. destruct (Menu.sidebar q); [eauto | discriminate].
  - rewrite Hx in Ho. destruct (Menu.overlay q); [eauto | discriminate].
Qed.

(** With the listeners of the script alone, what each event does. *)
Lemma dispatch_wired q e :
  Menu.listeners q
  = [Menu.Listener Menu.Btn "click" Menu.ToggleOnClick;
     Menu.Listener Menu.Overlay "click" Menu.Close;
     Menu.Listener Menu.Window "keydown" Menu.CloseOnEscape] →
  Menu.dispatch e q
  = match e with
    | Menu.Click Menu.Btn =>
        if Menu.expanded q then Menu.close q else Menu.open q
    | Menu.Click Menu.Overlay => Menu.close q
    | Menu.Click Menu.Window => q
    | Menu.Keydown key =>
        if String.eqb key "Escape" then Menu.close q else q
    end.
Proof.
  intros H. unfold Menu.dispatch. rewrite H.
  destruct e as [[]|key]; reflexivity.
Qed.

Lemma expanded_close p :
  is_Some (Menu.menuBtn p) → Menu.expanded (Menu.close p) = false.
Proof.
  intros [btn Hb]. unfold Menu.expanded, getAttribute, Menu.close.
  simpl. rewrite Hb. simpl. now rewrite lookup_insert_eq.
Qed.

(** The states the page is in after [init] and any events: the script's
    listeners and the three anchors are there. *)
Lemma reachable_wired btn side over items path es :
  let q := after es (Menu.init (Menu.Page (Some btn) (Some side) (Some over)
                                  items path [])) in
  Menu.listeners q
  = [Menu.Listener Menu.Btn "click" Menu.ToggleOnClick;
     Menu.Listener Menu.Overlay "click" Menu.Close;
     Menu.Listener Menu.Window "keydown" Menu.CloseOnEscape]
  ∧ is_Some (Menu.menuBtn q) ∧ is_Some (Menu.sidebar q)
  ∧ is_Some (Menu.overlay q).
Proof.
  intros q. subst q.
  set (p := Menu.init _).
  pose proof (same_but_state_after es p) as H.
  destruct (same_but_state_anchors _ _ H) as (Hb & Hs & Ho).
  destruct H as (_ & _ & Hl & _).
  split; [rewrite Hl; reflexivity|].
  split; [apply Hb | split; [apply Hs | apply Ho]]; simpl; eauto.
Qed.

(** X17: in every state reached after [init], a click on the trigger
    inverts the expanded flag and leaves the panel shown when the flag is
    set and closed when it is not; so [n] clicks in a row change the state
    exactly when [n] is odd. *)
Theorem trigger_inverts btn side over items path es :
  let q := after es (Menu.init (Menu.Page (Some btn) (Some side) (Some over)
                                  items path [])) in
  let q' := Menu.dispatch (Menu.Click Menu.Btn) q in
  Menu.expanded q' = negb (Menu.expanded q)
  ∧ Menu.shown q' = Menu.expanded q'
  ∧ Menu.closed q' = negb (Menu.expanded q')
  ∧ ∀ n, Menu.expanded (after (replicate n (Menu.Click Menu.Btn)) q)
         = xorb (Menu.expanded q) (Nat.odd n).
Proof.
  intros q q'.
  destruct (reachable_wired btn side over items path es)
    as (Hl & Hb & Hs & Ho). fold q in Hl, Hb, Hs, Ho.
  assert (Hstep : Menu.expanded q' = negb (Menu.expanded q)
                  ∧ Menu.shown q' = Menu.expanded q'
                  ∧ Menu.closed q' = negb (Menu.expanded q')).
  { unfold q'. rewrite (dispatch_wired q _ Hl).
    destruct (Menu.expanded q) eqn:E.
    - rewrite (expanded_close q Hb). split; [reflexivity|].
      split; [unfold Menu.shown; now rewrite (expanded_close q Hb)|].
      now apply closed_close.
    - rewrite (expanded_open q Hb). split; [reflexivity|].
      split; [now apply shown_open|].
      unfold Menu.closed. now rewrite (expanded_open q Hb). }
  destruct Hstep as (H1 & H2 & H3).
  repeat (split; [assumption|]).
  intros n. induction n as [|n IH].
  - simpl. now destruct (Menu.expanded q).
  - replace (replicate (S n) (Menu.Click Menu.Btn))
      with (replicate n (Menu.Click Menu.Btn) ++ [Menu.Click Menu.Btn])%list
      by (rewrite <- replicate_S_end; reflexivity).
    unfold after in *. rewrite foldl_app. simpl.
    destruct (reachable_wired btn side over items path
                (es ++ replicate n (Menu.Click Menu.Btn)))
      as (Kl & Kb & _).
    unfold after in Kl, Kb. rewrite foldl_app in Kl, Kb.
    fold (after es) in Kl, Kb. fold q in Kl, Kb.
    rewrite (dispatch_wired _ _ Kl).
    rewrite Nat.odd_succ, <- Nat.negb_odd.
    destruct (Menu.expanded (foldl _ q _)) eqn:E.
    + rewrite (expanded_close _ Kb).
      destruct (Menu.expanded q), (Nat.odd n); simpl in *; congruence.
    + rewrite (expanded_open _ Kb).
      destruct (Menu.expanded q), (Nat.odd n); simpl in *; congruence.
Qed.

(** X18: in every state reached after [init], a click on the overlay and
    the Escape key close the panel, whatever its state; any other key and
    a click that reaches the window alone change nothing. *)
Theorem overlay_and_escape_close btn side over items path es :
  let q := after es (Menu.init (Menu.Page (Some btn) (Some side) (Some over)
                                  items path [])) in
  Menu.closed (Menu.dispatch (Menu.Click Menu.Overlay) q) = true
  ∧ Menu.closed (Menu.dispatch (Menu.Keydown "Escape") q) = true
  ∧ (∀ key, key ≠ "Escape" → Menu.dispatch (Menu.Keydown key) q = q)
  ∧ Menu.dispatch (Menu.Click Menu.Window) q = q.
Proof.
  intros q.
  destruct (reachable_wired btn side over items path es)
    as (Hl & Hb & Hs & Ho). fold q in Hl, Hb, Hs, Ho.
  rewrite !(dispatch_wired q _ Hl). simpl.
  split; [now apply closed_close|]. split; [now apply closed_close|].
  split; [|reflexivity].
  intros key Hk. rewrite (dispatch_wired q _ Hl).
  destruct (String.eqb_spec key "Escape"); [contradiction | reflexivity].
Qed.

End PanelMore.

(** ** Opening twice, loading twice, and the self-built panel *)

Section PanelTwice.
Import JSValue DOM PanelEvents.

Lemma classList_remove_remove t el :
  classList_remove t (classList_remove t el) = classList_remove t el.
Proof. unfold classList_remove. simpl. now rewrite remove_remove. Qed.

(** X19: [open()] is idempotent in both revisions of menu.js, and in both
    it leaves the panel shown whatever the state before (in the revision
    attached to the page, when the three anchors exist). *)
Theorem open_idempotent :
  (∀ p, Menu.open (Menu.open p) = Menu.open p)
  ∧ (∀ m, BuiltMenu.open (BuiltMenu.open m) = BuiltMenu.open m)
  ∧ (∀ btn side over items path ls,
       Menu.shown (Menu.open (Menu.Page (Some btn) (Some side) (Some over)
                                items path ls)) = true)
  ∧ (∀ m, BuiltMenu.shown (BuiltMenu.open m) = true).
Proof.
  split; [|split; [|split]].
  - intros [btn side over items path ls]. unfold Menu.open. simpl.
    f_equal.
    + destruct btn; simpl; [|reflexivity].
      now rewrite setAttribute_setAttribute.
    + destruct side; simpl; [|reflexivity].
      now rewrite classList_remove_remove.
    + destruct over; simpl; [|reflexivity].
      now rewrite classList_remove_remove.
  - intros m. unfold BuiltMenu.open. simpl. now rewrite remove_remove.
  - intros. apply shown_open; simpl; eauto.
  - intros m. unfold BuiltMenu.shown, BuiltMenu.open. simpl.
    now rewrite contains_remove.
Qed.

Lemma highlight_highlight token path a :
  highlight token path (highlight token path a) = highlight token path a.
Proof.
  unfold highlight at 2.
  destruct (strict_eq_string (of_attr (href a)) path) eqn:E.
  - unfold highlight. simpl. rewrite E. now rewrite add_add.
  - unfold highlight. now rewrite E.
Qed.

(** X20: the script run twice on the same page marks the links as one run
    does, but registers its listeners twice: a click on the trigger then
    toggles twice, the expanded flag ends as it was, and a panel that was
    not expanded ends closed. *)
Theorem init_twice btn side over items path :
  let p := Menu.Page (Some btn) (Some side) (Some over) items path [] in
  let q := Menu.init (Menu.init p) in
  Menu.menu_items q = Menu.menu_items (Menu.init p)
  ∧ length (Menu.listeners q) = 6%nat
  ∧ Menu.expanded (Menu.dispatch (Menu.Click Menu.Btn) q) = Menu.expanded p
  ∧ (Menu.expanded p = false →
     Menu.closed (Menu.dispatch (Menu.Click Menu.Btn) q) = true).
Proof.
  intros p q.
  assert (Hitems : Menu.menu_items q = Menu.menu_items (Menu.init p)).
  { simpl. rewrite <- list_fmap_compose. apply list_fmap_ext.
    intros i a _. apply highlight_highlight. }
  split; [exact Hitems|]. split; [reflexivity|].
  assert (Hb : is_Some (Menu.menuBtn q)) by (simpl; eauto).
  assert (Hs : is_Some (Menu.sidebar q)) by (simpl; eauto).
  assert (Ho : is_Some (Menu.overlay q)) by (simpl; eauto).
  assert (Hd : Menu.dispatch (Menu.Click Menu.Btn) q
               = if Menu.expanded q then Menu.open (Menu.close q)
                 else Menu.close (Menu.open q)).
  { unfold Menu.dispatch.
    change (Menu.listeners q)
      with [Menu.Listener Menu.Btn "click" Menu.ToggleOnClick;
            Menu.Listener Menu.Overlay "click" Menu.Close;
            Menu.Listener Menu.Window "keydown" Menu.CloseOnEscape;
            Menu.Listener Menu.Btn "click" Menu.ToggleOnClick;
            Menu.Listener Menu.Overlay "click" Menu.Close;
            Menu.Listener Menu.Window "keydown" Menu.CloseOnEscape].
    cbn [foldl Menu.listens_on Menu.listens_to Menu.calls Menu.event_target
         Menu.event_type Menu.target_eqb andb Menu.invoke].
    change (String.eqb "click" "click") with true.
    change (String.eqb "keydown" "click") with false.
    cbn [andb]. destruct (Menu.expanded q) eqn:E.
    - now rewrite (expanded_close q Hb).
    - now rewrite (expanded_open q Hb). }
  assert (Hq : Menu.expanded q = Menu.expanded p) by reflexivity.
  rewrite Hd, Hq. split.
  - destruct (Menu.expanded p).
    + apply expanded_open. unfold Menu.close; simpl; eauto.
    + apply expanded_close. unfold Menu.open; simpl; eauto.
  - intros ->. apply closed_close; unfold Menu.open; simpl; eauto.
Qed.

Lemma init_twice_witness :
  let p := Menu.Page (Some (Element [] ∅)) (Some (Element [] ∅))
             (Some (Element [] ∅)) [] "/" [] in
  Menu.closed
    (Menu.dispatch (Menu.Click Menu.Btn) (Menu.init (Menu.init p))) = true.
Proof.
  intros p.
  assert (Hflag : Menu.expanded p = false) by (vm_compute; reflexivity).
  destruct (init_twice (Element [] ∅) (Element [] ∅) (Element [] ∅) [] "/")
    as (_ & _ & _ & H).
  exact (H Hflag).
Defined.

Lemma built_dispatch_frame e m :
  BuiltMenu.links (BuiltMenu.dispatch e m) = BuiltMenu.links m
  ∧ BuiltMenu.panel (BuiltMenu.dispatch e m) = BuiltMenu.panel m
  ∧ ∀ t, t ≠ "hidden" →
      ClassList.contains (BuiltMenu.backdrop (BuiltMenu.dispatch e m)) t
      = ClassList.contains (BuiltMenu.backdrop m) t.
Proof.
  destruct e as [| | |key]; simpl;
    try destruct (String.eqb key "Escape"); simpl;
    repeat split; intros t Ht;
    first [reflexivity
          | now apply contains_remove_other
          | now apply contains_add_other].
Qed.

Lemma built_after_frame es : ∀ m,
  BuiltMenu.links (built_after es m) = BuiltMenu.links m
  ∧ BuiltMenu.panel (built_after es m) = BuiltMenu.panel m
  ∧ ∀ t, t ≠ "hidden" →
      ClassList.contains (BuiltMenu.backdrop (built_after es m)) t
      = ClassList.contains (BuiltMenu.backdrop m) t.
Proof.
  induction es as [|e es IH]; intros m; [repeat split|].
  simpl. destruct (IH (BuiltMenu.dispatch e m)) as (H1 & H2 & H3).
  destruct (built_dispatch_frame e m) as (K1 & K2 & K3).
  repeat split; try congruence.
  intros t Ht. now rewrite H3, K3.
Qed.

(** X21: the panel that menu.js builds itself starts hidden: the backdrop
    has the class [hidden], the panel the class [-translate-x-full] and no
    transform of its own.  After any sequence of events, a click on the
    trigger shows it (backdrop not hidden, panel at translateX(0%)); a
    click on the backdrop or on the close button, or the Escape key, hides
    it (backdrop hidden, panel at translateX(-100%)); any other key
    changes nothing.  No event changes the links and their marks, the
    classes of the panel, or a class of the backdrop other than [hidden].
    On a page without a body the script throws and attaches no panel. *)
Theorem built_panel_events pathname es :
  let m := built_after es (BuiltMenu.init pathname) in
  (ClassList.contains (BuiltMenu.backdrop (BuiltMenu.init pathname)) "hidden"
   = true
   ∧ ClassList.contains (BuiltMenu.panel (BuiltMenu.init pathname))
       "-translate-x-full" = true
   ∧ BuiltMenu.panel_transform (BuiltMenu.init pathname) = "")
  ∧ (ClassList.contains
       (BuiltMenu.backdrop (BuiltMenu.dispatch BuiltMenu.ClickBtn m))
       "hidden" = false
     ∧ BuiltMenu.panel_transform (BuiltMenu.dispatch BuiltMenu.ClickBtn m)
       = "translateX(0%)")
  ∧ (∀ e, e = BuiltMenu.ClickBackdrop ∨ e = BuiltMenu.ClickMenuClose
          ∨ e = BuiltMenu.Keydown "Escape" →
       ClassList.contains (BuiltMenu.backdrop (BuiltMenu.dispatch e m))
         "hidden" = true
       ∧ BuiltMenu.panel_transform (BuiltMenu.dispatch e m)
         = "translateX(-100%)")
  ∧ (∀ key, key ≠ "Escape" →
       BuiltMenu.dispatch (BuiltMenu.Keydown key) m = m)
  ∧ BuiltMenu.links m = BuiltMenu.links (BuiltMenu.init pathname)
  ∧ BuiltMenu.panel m = BuiltMenu.panel (BuiltMenu.init pathname)
  ∧ (∀ t, t ≠ "hidden" →
       ClassList.contains (BuiltMenu.backdrop m) t
       = ClassList.contains (BuiltMenu.backdrop (BuiltMenu.init pathname)) t)
  ∧ BuiltMenu.script true pathname
    = Shortcuts.Returns (BuiltMenu.init pathname)
  ∧ BuiltMenu.script false pathname = Shortcuts.Throws Shortcuts.TypeError.
Proof.
  intros m.
  split; [repeat split|].
  split; [split; [simpl; apply contains_remove | reflexivity]|].
  split.
  { intros e [->|[->| ->]]; simpl;
      (split; [apply contains_add | reflexivity]). }
  split.
  { intros key Hk. simpl.
    destruct (String.eqb_spec key "Escape"); [contradiction | reflexivity]. }
  destruct (built_after_frame es (BuiltMenu.init pathname))
    as (Hl & Hp & Hb).
  split; [exact Hl|]. split; [exact Hp|]. split; [exact Hb|].
  split; reflexivity.
Qed.

End PanelTwice.

(** ** The current path *)

Section PathMore.
Import JSValue DOM.

Lemma strip_app_slash s :
  strip_trailing_slashes (s ++ "/")%string = strip_trailing_slashes s.
Proof.
  induction s as [|c s IH]; [reflexivity|].
  simpl. now rewrite IH.
Qed.

Lemma strip_fixed x :
  (∀ u, x ≠ (u ++ "/")%string) → strip_trailing_slashes x = x.
Proof.
  induction x as [|c x IH]; intros Hx; [reflexivity|].
  simpl. rewrite IH.
  - destruct x as [|c' x']; [|reflexivity].
    destruct (Ascii.eqb_spec c "/") as [->|Hc]; [|reflexivity].
    exfalso. now apply (Hx "").
  - intros u ->. now apply (Hx (String c u)).
Qed.

(** X22: the current path is never empty and, unless it is "/", does not
    end with a slash; computing it again changes nothing, and one more
    slash at the end of the pathname gives the same path, hence the same
    links marked by [init]. *)
Theorem current_path_normal pathname :
  current_path pathname ≠ ""
  ∧ (current_path pathname = "/"
     ∨ ∀ u, current_path pathname ≠ (u ++ "/")%string)
  ∧ current_path (current_path pathname) = current_path pathname
  ∧ current_path (pathname ++ "/")%string = current_path pathname
  ∧ ∀ btn side over items,
      Menu.menu_items
        (Menu.init (Menu.Page (Some btn) (Some side) (Some over) items
                      (pathname ++ "/")%string []))
      = Menu.menu_items
          (Menu.init (Menu.Page (Some btn) (Some side) (Some over) items
                        pathname [])).
Proof.
  assert (Happ : current_path (pathname ++ "/")%string
                 = current_path pathname)
    by (unfold current_path; now rewrite strip_app_slash).
  destruct (strip_trailing_slashes_spec pathname) as [_ Hend].
  unfold current_path in *.
  destruct (strip_trailing_slashes pathname) as [|c s] eqn:E.
  - repeat split; try discriminate; auto.
    intros. simpl. unfold current_path. now rewrite strip_app_slash, E.
  - split; [discriminate|]. split; [right; exact Hend|].
    split; [now rewrite (strip_fixed _ Hend)|]. split; [exact Happ|].
    intros. simpl. unfold current_path. now rewrite strip_app_slash, E.
Qed.

End PathMore.
